(** * Contract-Data-Processor: the point-of-contact aggregation pipeline

    A shallow embedding of [POC-processing.py]: the text functions
    ([str.title], [str.split], the regular expressions of [clean_name] and
    [custom_sort_key]), the aggregation dictionary filled by [add_to_dict],
    the row loop and the finalisation of [main], and [sort_dataframe].

    Text is modelled as byte strings restricted to ASCII: a byte above 127 is
    neither a letter, a digit nor white space. *)

From Stdlib Require Import ZArith Ascii String List Sorting.Sorted.
From stdpp Require Import base decidable list countable strings gmap sets sorting.

Open Scope string_scope.
Open Scope Z_scope.

(** ** Exceptions and results *)

Inductive exn : Type :=
| KeyError (column : string)
| TypeError
| IndexError
| NameError (name : string).

Inductive result (A : Type) : Type :=
| Ok (a : A)
| Raise (e : exn).
Arguments Ok {A} a.
Arguments Raise {A} e.

#[export] Instance result_ret : MRet result := fun A a => Ok a.
#[export] Instance result_bind : MBind result := fun A B k r =>
  match r with
  | Ok a => k a
  | Raise e => Raise e
  end.

Fixpoint mapM {A B : Type} (f : A -> result B) (l : list A) : result (list B) :=
  match l with
  | [] => Ok []
  | a :: l' => b ← f a; bs ← mapM f l'; Ok (b :: bs)
  end.

(** ** Characters *)

Module Char.

Definition code (c : ascii) : N := N_of_ascii c.

Definition in_range (lo hi : N) (c : ascii) : bool :=
  (N.leb lo (code c) && N.leb (code c) hi)%bool.

Definition is_upper : ascii -> bool := in_range 65 90.
Definition is_lower : ascii -> bool := in_range 97 122.
Definition is_cased (c : ascii) : bool := (is_upper c || is_lower c)%bool.
Definition is_digit : ascii -> bool := in_range 48 57.

(** [str.isspace], also the class [\s] of a [str] pattern: tab, line feed,
    vertical tab, form feed, carriage return, the four separators 28..31 and
    the space. *)
Definition is_space (c : ascii) : bool :=
  (in_range 9 13 c || in_range 28 32 c)%bool.

Definition to_upper (c : ascii) : ascii :=
  if is_lower c then ascii_of_N (code c - 32) else c.
Definition to_lower (c : ascii) : ascii :=
  if is_upper c then ascii_of_N (code c + 32) else c.

Definition quote : ascii := ascii_of_N 34.
Definition apostrophe : ascii := ascii_of_N 39.

End Char.

(** ** Python's string methods *)

Module Str.

(** [s.lower()] *)
Fixpoint lower (s : string) : string :=
  match s with
  | EmptyString => EmptyString
  | String c s' => String (Char.to_lower c) (lower s')
  end.

(** [s.title()]: a cased character is upper-cased when the character before
    it is not cased, and lower-cased when it is. *)
Fixpoint title_from (previous_is_cased : bool) (s : string) : string :=
  match s with
  | EmptyString => EmptyString
  | String c s' =>
      if Char.is_cased c
      then String (if previous_is_cased then Char.to_lower c else Char.to_upper c)
                  (title_from true s')
      else String c (title_from false s')
  end.

Definition title (s : string) : string := title_from false s.

(** Number of items of [s.split()]: the maximal runs of characters that are
    not white space. *)
Fixpoint count_words_from (in_word : bool) (s : string) : nat :=
  match s with
  | EmptyString => O
  | String c s' =>
      if Char.is_space c then count_words_from false s'
      else if in_word then count_words_from true s'
           else S (count_words_from true s')
  end.

Definition count_words (s : string) : nat := count_words_from false s.

(** Dropping the leading characters of a class. *)
Fixpoint drop_while (p : ascii -> bool) (s : string) : string :=
  match s with
  | EmptyString => EmptyString
  | String c s' => if p c then drop_while p s' else s
  end.

Fixpoint take_while (p : ascii -> bool) (s : string) : string :=
  match s with
  | EmptyString => EmptyString
  | String c s' => if p c then String c (take_while p s') else EmptyString
  end.

Definition lstrip : string -> string := drop_while Char.is_space.

(** Dropping trailing white space: a character is kept when it is not white
    space or when something is kept after it. *)
Fixpoint rstrip (s : string) : string :=
  match s with
  | EmptyString => EmptyString
  | String c s' =>
      match rstrip s' with
      | EmptyString => if Char.is_space c then EmptyString else String c EmptyString
      | t => String c t
      end
  end.

(** [s.strip()] *)
Definition strip (s : string) : string := rstrip (lstrip s).

(** [s.startswith(p)], with the rest of [s] after [p]. *)
Fixpoint strip_prefix (p s : string) : option string :=
  match p, s with
  | EmptyString, _ => Some s
  | String a p', String b s' => if Ascii.eqb a b then strip_prefix p' s' else None
  | String _ _, EmptyString => None
  end.

(** [sep.join(items)] *)
Fixpoint join (sep : string) (items : list string) : string :=
  match items with
  | [] => EmptyString
  | [x] => x
  | x :: rest => x ++ sep ++ join sep rest
  end.

(** Comparison of two strings, code point by code point. *)
Fixpoint compare (a b : string) : comparison :=
  match a, b with
  | EmptyString, EmptyString => Eq
  | EmptyString, String _ _ => Lt
  | String _ _, EmptyString => Gt
  | String x a', String y b' =>
      match N.compare (Char.code x) (Char.code y) with
      | Eq => compare a' b'
      | o => o
      end
  end.

Definition leb (a b : string) : bool :=
  match compare a b with Gt => false | _ => true end.
Definition ltb (a b : string) : bool :=
  match compare a b with Lt => true | _ => false end.

End Str.

(** ** The regular expressions of the program *)

Module Re.

(** [re.match(r'^\s*Telephone:', name)] *)
Definition match_telephone (name : string) : bool :=
  match Str.strip_prefix "Telephone:" (Str.lstrip name) with
  | Some _ => true
  | None => false
  end.

(** [re.findall(r'\d+', name)]: only its first item is used. *)
Definition first_digits (name : string) : option string :=
  match Str.drop_while (fun c => negb (Char.is_digit c)) name with
  | EmptyString => None
  | s => Some (Str.take_while Char.is_digit s)
  end.

(** The first substitution of [clean_name]: every double quote and every
    apostrophe is removed. *)
Fixpoint remove_quotes (s : string) : string :=
  match s with
  | EmptyString => EmptyString
  | String c s' =>
      if (Ascii.eqb c Char.quote || Ascii.eqb c Char.apostrophe)%bool
      then remove_quotes s'
      else String c (remove_quotes s')
  end.

(** [re.sub(r'^\d+\s*', '', s)] *)
Definition remove_leading_number (s : string) : string :=
  match s with
  | String c _ =>
      if Char.is_digit c
      then Str.lstrip (Str.drop_while Char.is_digit s)
      else s
  | EmptyString => s
  end.

(** [re.sub(r'A1C', '', s)]: the occurrences are found from left to right and
    do not overlap. *)
Fixpoint remove_a1c (s : string) : string :=
  match s with
  | EmptyString => EmptyString
  | String c s' =>
      match s' with
      | String c1 (String c2 rest) =>
          if (Ascii.eqb c "A" && Ascii.eqb c1 "1" && Ascii.eqb c2 "C")%bool
          then remove_a1c rest
          else String c (remove_a1c s')
      | _ => String c (remove_a1c s')
      end
  end.

(** [re.sub(r'\s+', ' ', s)]: each maximal run of white space becomes one
    space. *)
Fixpoint collapse_spaces_from (in_run : bool) (s : string) : string :=
  match s with
  | EmptyString => EmptyString
  | String c s' =>
      if Char.is_space c
      then if in_run then collapse_spaces_from true s'
           else String " " (collapse_spaces_from true s')
      else String c (collapse_spaces_from false s')
  end.

Definition collapse_spaces : string -> string := collapse_spaces_from false.

(** [re.sub(r'^\([^)]*\)\s*', '', s)]: an opening parenthesis at the start,
    everything up to the first closing one, and the white space after it. *)
Definition remove_parenthesised (s : string) : string :=
  match s with
  | String c s' =>
      if Ascii.eqb c "("
      then match Str.drop_while (fun x => negb (Ascii.eqb x ")")) s' with
           | String _ rest => Str.lstrip rest
           | EmptyString => s
           end
      else s
  | EmptyString => s
  end.

(** [re.sub(r'^(Dr\.|Lt\.)\s*', '', s)] *)
Definition remove_honorific (s : string) : string :=
  match Str.strip_prefix "Dr." s with
  | Some rest => Str.lstrip rest
  | None =>
      match Str.strip_prefix "Lt." s with
      | Some rest => Str.lstrip rest
      | None => s
      end
  end.

End Re.

(** ** The two name functions *)

(** The names bound at module level when [clean_name] runs. [new_df] is a
    local variable of [main] and is not among them. *)
Definition module_globals : list string :=
  ["pd"; "csv"; "re"; "FILE_PATH"; "OUTPUT_CSV_PATH"; "SORTING_PARAMETER";
   "contact_dict"; "add_to_dict"; "clean_name"; "custom_sort_key";
   "sort_dataframe"; "main"].

(** Reading a name that is not local to the running function. *)
Definition load_global (name : string) : result unit :=
  if existsb (String.eqb name) module_globals then Ok tt
  else Raise (NameError name).

(** [clean_name(name)]. In the [Telephone:] branch the first item of
    [findall] is taken (an [IndexError] when there is none), then [new_df] is
    read; the assignment through [.loc] and the [return] come after it. *)
Definition clean_name (name : string) : result string :=
  if (4 <? Z.of_nat (Str.count_words name))%Z then Ok "N/A"
  else if Re.match_telephone name then
    phone_number ← match Re.first_digits name with
                   | Some d => Ok d
                   | None => Raise IndexError
                   end;
    _ ← load_global "new_df";
    Ok "N/A"
  else
    let clean := Re.remove_quotes name in
    let clean := Re.remove_leading_number clean in
    let clean := Re.remove_a1c clean in
    let clean := Str.strip (Str.title (Re.collapse_spaces clean)) in
    Ok clean.

(** [custom_sort_key(name)] *)
Definition custom_sort_key (name : string) : string :=
  if String.eqb name "N/A" then "zzz"
  else
    let name := Re.remove_parenthesised name in
    let name := Re.remove_honorific name in
    name.

(** ** Cells, rows and frames *)

(** A cell of a text column read by [pd.read_csv]: a string, or the missing
    value [nan]. *)
Inductive cell : Type :=
| NaN
| Str (s : string).

#[export] Instance cell_eq_dec : EqDecision cell.
Proof. solve_decision. Defined.

#[export] Instance cell_countable : Countable cell :=
  inj_countable'
    (fun c => match c with NaN => None | Str s => Some s end)
    (fun o => match o with None => NaN | Some s => Str s end)
    (fun c => match c with NaN => eq_refl | Str _ => eq_refl end).

(** [bool(x)]: [nan] is a non-zero float, a string is true unless empty. *)
Definition truthy (c : cell) : bool :=
  match c with
  | NaN => true
  | Str s => negb (String.eqb s "")
  end.

(** [pd.isna(x)] *)
Definition isna (c : cell) : bool :=
  match c with
  | NaN => true
  | Str _ => false
  end.

(** The input frame: its column labels and, for each row, the cell under each
    label. *)
Record DataFrame : Type := {
  columns : list string;
  rows : list (string -> cell)
}.

Definition has_column (df : DataFrame) (label : string) : bool :=
  existsb (String.eqb label) (columns df).

(** [row[label]] *)
Definition getitem (df : DataFrame) (row : string -> cell) (label : string)
  : result cell :=
  if has_column df label then Ok (row label) else Raise (KeyError label).

(** ** The aggregation dictionary *)

(** [contact_info]: email, phone number, state, city and agency. *)
Record contact_info : Type := {
  info_email : cell;
  info_phone : cell;
  info_state : cell;
  info_city : cell;
  info_agency : cell
}.

(** A value of [contact_dict]: the five items of [contact_info], then the
    count at index 5 and the two sets at indices 6 and 7. *)
Record contact : Type := {
  email : cell;
  phone : cell;
  state : cell;
  city : cell;
  agency : cell;
  opportunity_count : Z;
  departments : gset cell;
  contract_types : gset cell
}.

(** A [dict] keeps its keys in the order of their first insertion. *)
Definition dict : Type := list (string * contact).

Fixpoint dict_get (k : string) (d : dict) : option contact :=
  match d with
  | [] => None
  | (k', v) :: d' => if String.eqb k k' then Some v else dict_get k d'
  end.

(** [d[k] = v]: in place when [k] is a key, at the end when it is not. *)
Fixpoint dict_set (k : string) (v : contact) (d : dict) : dict :=
  match d with
  | [] => [(k, v)]
  | (k', v') :: d' =>
      if String.eqb k k' then (k, v) :: d' else (k', v') :: dict_set k v d'
  end.

Definition new_contact (i : contact_info) (opportunity_info : cell * cell) : contact :=
  {| email := info_email i;
     phone := info_phone i;
     state := info_state i;
     city := info_city i;
     agency := info_agency i;
     opportunity_count := 1;
     departments := {[ opportunity_info.1 ]};
     contract_types := {[ opportunity_info.2 ]} |}.

(** The [else] branch of [add_to_dict]: items 5, 6 and 7 of the stored list
    are updated, items 0 to 4 are not assigned. *)
Definition update_contact (existing_info : contact) (opportunity_info : cell * cell)
  : contact :=
  {| email := email existing_info;
     phone := phone existing_info;
     state := state existing_info;
     city := city existing_info;
     agency := agency existing_info;
     opportunity_count := opportunity_count existing_info + 1;
     departments := departments existing_info ∪ {[ opportunity_info.1 ]};
     contract_types := contract_types existing_info ∪ {[ opportunity_info.2 ]} |}.

(** [add_to_dict(contact_name, contact_info, opportunity_info)], with the
    global [contact_dict] passed in and returned. *)
Definition add_to_dict (contact_dict : dict) (contact_name : cell)
    (info : contact_info) (opportunity_info : cell * cell) : dict :=
  if (truthy contact_name && negb (isna contact_name))%bool then
    match contact_name with
    | Str name =>
        let formatted_name := Str.title name in
        match dict_get formatted_name contact_dict with
        | None =>
            dict_set formatted_name (new_contact info opportunity_info) contact_dict
        | Some existing_info =>
            dict_set formatted_name (update_contact existing_info opportunity_info)
                     contact_dict
        end
    | NaN => contact_dict
    end
  else contact_dict.

(** ** The row loop of [main] *)

(** The secondary contact of a row, lines 135 to 144. *)
Definition add_secondary (df : DataFrame) (row : string -> cell)
    (opportunity_info : cell * cell) (contact_dict : dict) : result dict :=
  if has_column df "secondary_contact_full_name" then
    let name := row "secondary_contact_full_name" in
    if (truthy name && negb (isna name))%bool then
      secondary_contact ← getitem df row "secondary_contact_full_name";
      e ← getitem df row "secondary_contact_email";
      p ← getitem df row "secondary_contact_phone";
      s ← getitem df row "State";
      c ← getitem df row "City";
      a ← getitem df row "agency";
      Ok (add_to_dict contact_dict secondary_contact
            {| info_email := e; info_phone := p; info_state := s;
               info_city := c; info_agency := a |}
            opportunity_info)
    else Ok contact_dict
  else Ok contact_dict.

(** One iteration of the loop over [df.iterrows()]. *)
Definition process_row (df : DataFrame) (contact_dict : dict) (row : string -> cell)
  : result dict :=
  sub_tier ← getitem df row "sub_tier";
  title ← getitem df row "title";
  let opportunity_info := (sub_tier, title) in
  primary_contact ← getitem df row "primary_contact_full_name";
  e ← getitem df row "primary_contact_email";
  p ← getitem df row "primary_contact_phone";
  s ← getitem df row "State";
  c ← getitem df row "City";
  a ← getitem df row "agency";
  let contact_dict :=
    add_to_dict contact_dict primary_contact
      {| info_email := e; info_phone := p; info_state := s;
         info_city := c; info_agency := a |}
      opportunity_info in
  add_secondary df row opportunity_info contact_dict.

Fixpoint process_rows (df : DataFrame) (contact_dict : dict)
    (rs : list (string -> cell)) : result dict :=
  match rs with
  | [] => Ok contact_dict
  | row :: rs' =>
      contact_dict ← process_row df contact_dict row;
      process_rows df contact_dict rs'
  end.

(** The loop, started on the empty [contact_dict] of a fresh run. *)
Definition aggregate (df : DataFrame) : result dict :=
  process_rows df [] (rows df).

(** ** Finalisation *)

(** The order in which a [set] hands out its items depends on the hashes of
    the items and is not fixed by the program: it is a parameter. *)
Class SetOrder : Type := {
  set_iter : gset cell -> list cell;
  set_iter_perm : forall s, set_iter s ≡ₚ elements s
}.

(** An item of the iterable given to [str.join] must be a string. *)
Definition expect_str (c : cell) : result string :=
  match c with
  | Str x => Ok x
  | NaN => Raise TypeError
  end.

(** [', '.join(s)] for a set [s]. *)
Definition join_set `{SetOrder} (s : gset cell) : result string :=
  items ← mapM expect_str (set_iter s);
  Ok (Str.join ", " items).

(** The rows of [new_df] and of the output. *)
Module Out.
Record row : Type := {
  name : string;
  email : cell;
  phone_number : cell;
  state : cell;
  city : cell;
  agency : cell;
  opportunity_count : Z;
  associated_departments : string;
  contract_types : string
}.
End Out.

(** Lines 147 to 158 for one key: the two sets become strings, and the entry
    becomes a row whose [name] is the key. *)
Definition to_row `{SetOrder} (entry : string * contact) : result Out.row :=
  let key := entry.1 in
  let v := entry.2 in
  deps ← join_set (departments v);
  types ← join_set (contract_types v);
  Ok {| Out.name := key;
        Out.email := email v;
        Out.phone_number := phone v;
        Out.state := state v;
        Out.city := city v;
        Out.agency := agency v;
        Out.opportunity_count := opportunity_count v;
        Out.associated_departments := deps;
        Out.contract_types := types |}.

(** Lines 157 and 159: the name is title-cased, then cleaned. *)
Definition format_name (r : Out.row) : result Out.row :=
  n ← clean_name (Str.title (Out.name r));
  Ok {| Out.name := n;
        Out.email := Out.email r;
        Out.phone_number := Out.phone_number r;
        Out.state := Out.state r;
        Out.city := Out.city r;
        Out.agency := Out.agency r;
        Out.opportunity_count := Out.opportunity_count r;
        Out.associated_departments := Out.associated_departments r;
        Out.contract_types := Out.contract_types r |}.

(** ** Sorting *)

(** [sort_values] is called without [kind], so a single column is sorted by
    the default kind, quicksort, which promises an index that is a
    permutation of the positions and along which the keys ascend, and
    promises nothing on the order of equal keys. *)
Class SortKind : Type := {
  argsort : forall K : Type, (K -> K -> bool) -> list K -> list nat;
  argsort_perm : forall (K : Type) (le : K -> K -> bool) (ks : list K),
    argsort K le ks ≡ₚ seq 0 (length ks);
  argsort_sorted : forall (K : Type) (le : K -> K -> bool) (ks : list K),
    (forall a b, le a b = true \/ le b a = true) ->
    (forall a b c, le a b = true -> le b c = true -> le a c = true) ->
    StronglySorted
      (fun i j => forall a b, ks !! i = Some a -> ks !! j = Some b -> le a b = true)
      (argsort K le ks)
}.

(** [df.take(indexer)] *)
Definition take (df : list Out.row) (indexer : list nat) : list Out.row :=
  omap (fun i => df !! i) indexer.

(** [nargsort] on keys none of which is missing. For a descending sort the
    keys and their positions are reversed, sorted, and the index is reversed
    again. *)
Definition nargsort `{SortKind} {K : Type} (le : K -> K -> bool) (items : list K)
    (ascending : bool) : list nat :=
  if ascending then argsort K le items
  else
    let non_nans := reverse items in
    let non_nan_idx := reverse (seq 0 (length items)) in
    let indexer := omap (fun j => non_nan_idx !! j) (argsort K le non_nans) in
    reverse indexer.

(** Order of the cells of a column: strings by code points, [nan] last. *)
Definition cell_leb (a b : cell) : bool :=
  match a, b with
  | _, NaN => true
  | NaN, Str _ => false
  | Str x, Str y => Str.leb x y
  end.

(** Order of pairs of cells, the first component first. *)
Definition pair_leb (a b : cell * cell) : bool :=
  if cell_leb a.1 b.1
  then if cell_leb b.1 a.1 then cell_leb a.2 b.2 else true
  else false.

Section Insertion.
Context {A : Type} (le : A -> A -> bool).

Fixpoint insert_sorted (x : A) (l : list A) : list A :=
  match l with
  | [] => [x]
  | y :: l' => if le x y then x :: l else y :: insert_sorted x l'
  end.

(** A stable sort: an item goes before the later items it is not above. *)
Definition insertion_sort (l : list A) : list A := foldr insert_sorted [] l.
End Insertion.

(** The keys with their positions. *)
Definition indexed {K : Type} (ks : list K) : list (nat * K) :=
  imap (fun i k => (i, k)) ks.

(** A stable [argsort]. *)
Definition stable_argsort (K : Type) (le : K -> K -> bool) (ks : list K) : list nat :=
  (insertion_sort (fun a b => le a.2 b.2) (indexed ks)).*1.


(** [lexsort_indexer], used for several columns whatever the kind: a stable
    sort on the tuples of keys. *)
Definition lexsort_indexer (keys : list (cell * cell)) : list nat :=
  stable_argsort (cell * cell) pair_leb keys.

(** [sort_dataframe(df, sort_by)] *)
Definition sort_dataframe `{SortKind} (df : list Out.row) (sort_by : string)
  : list Out.row :=
  if String.eqb sort_by "name" then
    take df (nargsort Str.leb ((fun r => custom_sort_key (Out.name r)) <$> df) true)
  else if String.eqb sort_by "city" then
    take df (lexsort_indexer ((fun r => (Out.city r, Out.state r)) <$> df))
  else if String.eqb sort_by "department" then
    take df (nargsort Str.leb (Out.associated_departments <$> df) true)
  else if String.eqb sort_by "opportunity" then
    take df (nargsort Z.leb (Out.opportunity_count <$> df) false)
  else df.

(** ** The pipeline *)

(** [main()], on the frame read from the file and with the value of
    [SORTING_PARAMETER]; the result is the frame handed to [to_csv]. A frame
    none of whose slots has a name gives the empty frame. *)
Definition main `{SetOrder} `{SortKind} (df : DataFrame) (sort_by : string)
  : result (list Out.row) :=
  contact_dict ← aggregate df;
  new_df ← mapM to_row contact_dict;
  new_df ← mapM format_name new_df;
  Ok (sort_dataframe new_df sort_by).

(** ** Vocabulary of the statements *)

(** The same five contact fields. *)
Definition same_details (a b : contact) : Prop :=
  email a = email b /\ phone a = phone b /\ state a = state b /\
  city a = city b /\ agency a = agency b.

Definition details_of (i : contact_info) (c : contact) : Prop :=
  email c = info_email i /\ phone c = info_phone i /\ state c = info_state i /\
  city c = info_city i /\ agency c = info_agency i.

(** A sequence of calls of [add_to_dict]. *)
Definition upsert : Type := cell * contact_info * (cell * cell).

Definition add_all (d : dict) (us : list upsert) : dict :=
  foldl (fun d u => add_to_dict d u.1.1 u.1.2 u.2) d us.

(** The order on rows that each policy sorts by. *)
Definition name_key_leb (r r' : Out.row) : bool :=
  Str.leb (custom_sort_key (Out.name r)) (custom_sort_key (Out.name r')).

Definition city_state_leb (r r' : Out.row) : bool :=
  pair_leb (Out.city r, Out.state r) (Out.city r', Out.state r').

Definition state_city_leb (r r' : Out.row) : bool :=
  pair_leb (Out.state r, Out.city r) (Out.state r', Out.city r').


(** A contact slot maps to a key when its name is a non-empty string whose
    title-cased form is the key. *)
Definition maps_to (name : cell) (key : string) : bool :=
  match name with
  | Str s => (negb (String.eqb s "") && String.eqb (Str.title s) key)%bool
  | NaN => false
  end.

Definition one_if (b : bool) : Z := if b then 1 else 0.

(** The slots of one row that map to the key: the primary one, and the
    secondary one when the frame has the column. *)
Definition row_slots (df : DataFrame) (row : string -> cell) (key : string) : Z :=
  one_if (maps_to (row "primary_contact_full_name") key) +
  one_if (has_column df "secondary_contact_full_name" &&
          maps_to (row "secondary_contact_full_name") key).

(** The number of contact slots, over the given rows, that map to the key. *)
Fixpoint slots_of_rows (df : DataFrame) (rs : list (string -> cell)) (key : string) : Z :=
  match rs with
  | [] => 0
  | row :: rs' => row_slots df row key + slots_of_rows df rs' key
  end.

Definition slot_count (df : DataFrame) (key : string) : Z :=
  slots_of_rows df (rows df) key.

(** The count stored under a key, 0 when the key is absent. *)
Definition count_of (d : dict) (key : string) : Z :=
  match dict_get key d with
  | Some v => opportunity_count v
  | None => 0
  end.

(** The dictionary is well formed: no key twice, every count at least 1. *)
Definition dict_wf (d : dict) : Prop :=
  NoDup d.*1 /\ forall k v, dict_get k d = Some v -> 1 <= opportunity_count v.

(** What a key and the output row made from it have to do with each other. *)
Definition row_of_key (df : DataFrame) (key : string) (r : Out.row) : Prop :=
  clean_name (Str.title key) = Ok (Out.name r) /\
  Out.opportunity_count r = slot_count df key.

(** The secondary slot of the row is not taken: the frame has no column for
    the secondary name, or the name is missing or empty. *)
Definition secondary_skipped (df : DataFrame) (row : string -> cell) : bool :=
  negb (has_column df "secondary_contact_full_name" &&
        truthy (row "secondary_contact_full_name") &&
        negb (isna (row "secondary_contact_full_name"))).

(** The key under which [add_to_dict] files a name, when it files it: the
    title-cased name, unless the name is missing or empty. *)
Definition key_of (name : cell) : option string :=
  match name with
  | Str s => if String.eqb s "" then None else Some (Str.title s)
  | NaN => None
  end.

(** The parts of a call of [add_to_dict]. *)
Definition upsert_name (u : upsert) : cell := u.1.1.
Definition upsert_info (u : upsert) : contact_info := u.1.2.
Definition upsert_opportunity (u : upsert) : cell * cell := u.2.

(** The calls of [add_to_dict] that one row makes: the primary contact, then
    the secondary one when the frame has the column for its name. *)
Definition primary_upsert (row : string -> cell) : upsert :=
  (row "primary_contact_full_name",
   {| info_email := row "primary_contact_email";
      info_phone := row "primary_contact_phone";
      info_state := row "State";
      info_city := row "City";
      info_agency := row "agency" |},
   (row "sub_tier", row "title")).

Definition secondary_upsert (row : string -> cell) : upsert :=
  (row "secondary_contact_full_name",
   {| info_email := row "secondary_contact_email";
      info_phone := row "secondary_contact_phone";
      info_state := row "State";
      info_city := row "City";
      info_agency := row "agency" |},
   (row "sub_tier", row "title")).

Definition row_upserts (df : DataFrame) (row : string -> cell) : list upsert :=
  primary_upsert row ::
  (if has_column df "secondary_contact_full_name" then [secondary_upsert row] else []).

Definition rows_upserts (df : DataFrame) (rs : list (string -> cell)) : list upsert :=
  concat (row_upserts df <$> rs).

Definition frame_upserts (df : DataFrame) : list upsert := rows_upserts df (rows df).

(** The five contact fields of a record. *)
Definition info_of (v : contact) : contact_info :=
  {| info_email := email v;
     info_phone := phone v;
     info_state := state v;
     info_city := city v;
     info_agency := agency v |}.

(** The first call, in a sequence, that is filed under the key. *)
Definition first_sighting (us : list upsert) (key : string) : option upsert :=
  find (fun u => bool_decide (key_of (upsert_name u) = Some key)) us.

(** The departments and the titles of the calls filed under the key. *)
Definition sighted_departments (us : list upsert) (key : string) : list cell :=
  (fun u => (upsert_opportunity u).1) <$>
  filter (fun u => key_of (upsert_name u) = Some key) us.

Definition sighted_titles (us : list upsert) (key : string) : list cell :=
  (fun u => (upsert_opportunity u).2) <$>
  filter (fun u => key_of (upsert_name u) = Some key) us.

(** What the dictionary holds under a key: the five contact fields, and the
    two sets, empty when the key is absent. *)
Definition info_at (d : dict) (key : string) : option contact_info :=
  info_of <$> dict_get key d.

Definition departments_at (d : dict) (key : string) : gset cell :=
  match dict_get key d with
  | Some v => departments v
  | None => ∅
  end.

Definition titles_at (d : dict) (key : string) : gset cell :=
  match dict_get key d with
  | Some v => contract_types v
  | None => ∅
  end.

(** The count of a record bounds the sizes of its two sets, none of which
    is empty. *)
Definition contact_ok (v : contact) : Prop :=
  (1 <= size (departments v))%nat /\
  Z.of_nat (size (departments v)) <= opportunity_count v /\
  (1 <= size (contract_types v))%nat /\
  Z.of_nat (size (contract_types v)) <= opportunity_count v.

(** A name that sends [clean_name] into its [Telephone:] branch. *)
Definition telephone_note (name : string) : bool :=
  (negb (4 <? Z.of_nat (Str.count_words name)) && Re.match_telephone name)%bool.


(** ** Sample data *)

(** The order in which [elements] lists a set. *)
Definition elements_order : SetOrder :=
  {| set_iter := elements; set_iter_perm := fun s => reflexivity _ |}.

(** Rows for the examples: a name, a state, a city and a count. *)
Definition sample_row (name state city : string) (count : Z) : Out.row :=
  {| Out.name := name;
     Out.email := NaN;
     Out.phone_number := NaN;
     Out.state := Str state;
     Out.city := Str city;
     Out.agency := NaN;
     Out.opportunity_count := count;
     Out.associated_departments := "Logistics";
     Out.contract_types := "Widget Supply" |}.

(** An output row of one opportunity of which only the name is known. *)
Definition bare_row (name : string) : Out.row :=
  {| Out.name := name;
     Out.email := NaN;
     Out.phone_number := NaN;
     Out.state := NaN;
     Out.city := NaN;
     Out.agency := NaN;
     Out.opportunity_count := 1;
     Out.associated_departments := "Logistics";
     Out.contract_types := "Widget Supply" |}.

(** Sample contact details of two sightings of one person. *)
Definition first_info : contact_info :=
  {| info_email := Str "jane@first.example";
     info_phone := Str "555-0100";
     info_state := Str "VA";
     info_city := Str "Norfolk";
     info_agency := Str "Navy" |}.

Definition later_info : contact_info :=
  {| info_email := Str "jane@later.example";
     info_phone := Str "555-0199";
     info_state := Str "TX";
     info_city := Str "Austin";
     info_agency := Str "Army" |}.

(** Frames for the examples: the required columns, and a row given by the
    cells that are not missing. *)
Definition required_columns : list string :=
  ["sub_tier"; "title"; "primary_contact_full_name"; "primary_contact_email";
   "primary_contact_phone"; "State"; "City"; "agency"].

Fixpoint row_of (cells : list (string * cell)) (label : string) : cell :=
  match cells with
  | [] => NaN
  | (l, c) :: cells' => if String.eqb label l then c else row_of cells' label
  end.

(** Jane Smith as primary contact twice under one title, and once as the
    secondary contact of Bob Jones, who is also her secondary contact. *)
Definition three_rows : DataFrame :=
  {| columns := required_columns ++
                ["secondary_contact_full_name"; "secondary_contact_email";
                 "secondary_contact_phone"];
     rows :=
       [row_of [("sub_tier", Str "Logistics"); ("title", Str "Widget Supply");
                ("primary_contact_full_name", Str "jane smith");
                ("secondary_contact_full_name", Str "bob jones")];
        row_of [("sub_tier", Str "Logistics"); ("title", Str "Widget Supply");
                ("primary_contact_full_name", Str "JANE SMITH")];
        row_of [("sub_tier", Str "Supply"); ("title", Str "Gadget Supply");
                ("primary_contact_full_name", Str "Bob Jones");
                ("secondary_contact_full_name", Str "Jane Smith")]] |}.

(** A placeholder in braces as one name, a note of five words as the other. *)
Definition placeholder_and_note : DataFrame :=
  {| columns := required_columns;
     rows :=
       [row_of [("sub_tier", Str "Logistics"); ("title", Str "Widget Supply");
                ("primary_contact_full_name", Str "{tbd}")];
        row_of [("sub_tier", Str "Logistics"); ("title", Str "Widget Supply");
                ("primary_contact_full_name", Str "please call the front desk")]] |}.

(** The two rows of the scenario, in two casings. *)
Definition jane_twice : DataFrame :=
  {| columns := required_columns;
     rows :=
       [row_of [("sub_tier", Str "Logistics"); ("title", Str "Widget Supply");
                ("primary_contact_full_name", Str "jane smith");
                ("primary_contact_email", Str "jane@first.example")];
        row_of [("sub_tier", Str "Logistics"); ("title", Str "Gadget Supply");
                ("primary_contact_full_name", Str "JANE Smith");
                ("primary_contact_email", Str "jane@later.example")]] |}.

(** ** Vocabulary of the statements on the pipeline *)


(** An output row made from a dictionary entry. *)
Definition row_from `{SetOrder} (entry : string * contact) (r : Out.row) : Prop :=
  clean_name (Str.title entry.1) = Ok (Out.name r) /\
  info_of entry.2
  = {| info_email := Out.email r;
       info_phone := Out.phone_number r;
       info_state := Out.state r;
       info_city := Out.city r;
       info_agency := Out.agency r |} /\
  Out.opportunity_count r = opportunity_count entry.2 /\
  join_set (departments entry.2) = Ok (Out.associated_departments r) /\
  join_set (contract_types entry.2) = Ok (Out.contract_types r).

(** A call that files its name has a string for department and for title. *)
Definition opportunity_is_text (u : upsert) : Prop :=
  key_of (upsert_name u) = None \/
  exists dept title, upsert_opportunity u = (Str dept, Str title).

(** The keys of a sequence of calls, each at its first occurrence. *)
Definition keys_by_first_sighting (us : list upsert) : list string :=
  reverse (remove_dups (reverse (omap (fun u => key_of (upsert_name u)) us))).

(** The values of [sort_by] for which [sort_dataframe] sorts. *)
Definition policies : list string := ["name"; "city"; "department"; "opportunity"].

(** The first required column, in the order in which a row is read, that the
    frame lacks. *)
Definition first_missing (df : DataFrame) : option string :=
  find (fun c => negb (has_column df c)) required_columns.

(** The secondary column that a row with a secondary name fails on. *)
Definition missing_secondary (df : DataFrame) : option string :=
  if has_column df "secondary_contact_full_name" then
    if has_column df "secondary_contact_email" then
      if has_column df "secondary_contact_phone" then None
      else Some "secondary_contact_phone"
    else Some "secondary_contact_email"
  else None.




(** * Properties *)

Example title_ex1 : Str.title "jane smith" = "Jane Smith". Proof. reflexivity. Qed.
Example title_ex2 : Str.title "JANE o'neil a1c" = "Jane O'Neil A1C". Proof. reflexivity. Qed.
Example clean_ex1 : clean_name "12  a1c  A1C 'bob' " = Ok "A1C Bob".
Proof. reflexivity. Qed.
Example clean_ex2 : clean_name "Telephone: 555-1234 call anytime please" = Ok "N/A".
Proof. reflexivity. Qed.
Example clean_ex3 : clean_name " Telephone: 555-1234" = Raise (NameError "new_df").
Proof. reflexivity. Qed.
Example clean_ex4 : clean_name "Telephone: none" = Raise IndexError.
Proof. reflexivity. Qed.
Example key_ex1 : custom_sort_key "(Reserve) Dr. Jane Smith" = "Jane Smith".
Proof. reflexivity. Qed.
Example key_ex2 : custom_sort_key "(Reserve Dr. Jane Smith" = "(Reserve Dr. Jane Smith".
Proof. reflexivity. Qed.

(** ** Text *)

Lemma to_lower_cased c : Char.is_cased (Char.to_lower c) = Char.is_cased c.
Proof. destruct c as [[] [] [] [] [] [] [] []]; reflexivity. Qed.

Lemma to_lower_idem c : Char.to_lower (Char.to_lower c) = Char.to_lower c.
Proof. destruct c as [[] [] [] [] [] [] [] []]; reflexivity. Qed.

Lemma to_upper_lower c : Char.to_upper (Char.to_lower c) = Char.to_upper c.
Proof. destruct c as [[] [] [] [] [] [] [] []]; reflexivity. Qed.

Lemma to_lower_uncased c : Char.is_cased c = false -> Char.to_lower c = c.
Proof.
  destruct c as [[] [] [] [] [] [] [] []]; intros H; try reflexivity;
    vm_compute in H; discriminate H.
Qed.

(** Title-casing does not look at the casing of its input. *)
Lemma title_from_lower b s : Str.title_from b (Str.lower s) = Str.title_from b s.
Proof.
  revert b; induction s as [|c s IH]; intros b; simpl; [reflexivity|].
  rewrite to_lower_cased, to_lower_idem, to_upper_lower, !IH.
  destruct (Char.is_cased c) eqn:E; [reflexivity|].
  rewrite (to_lower_uncased c E). reflexivity.
Qed.

Lemma title_same_letters a b : Str.lower a = Str.lower b -> Str.title a = Str.title b.
Proof.
  intros E. unfold Str.title.
  rewrite <- (title_from_lower false a), <- (title_from_lower false b), E.
  reflexivity.
Qed.

(** ** The dictionary *)

Lemma dict_get_set_eq k v d : dict_get k (dict_set k v d) = Some v.
Proof.
  induction d as [|[k' v'] d IH]; simpl.
  - rewrite String.eqb_refl. reflexivity.
  - destruct (String.eqb k k') eqn:E; simpl; rewrite ?String.eqb_refl, ?E; auto.
Qed.

Lemma dict_get_set_ne k k' v d : k <> k' -> dict_get k' (dict_set k v d) = dict_get k' d.
Proof.
  intros N. assert (Nb : String.eqb k' k = false) by (apply String.eqb_neq; congruence).
  induction d as [|[k0 v0] d IH]; simpl.
  - rewrite Nb. reflexivity.
  - destruct (String.eqb k k0) eqn:E; simpl.
    + apply String.eqb_eq in E. subst k0. rewrite Nb. reflexivity.
    + rewrite IH. reflexivity.
Qed.

Lemma dict_set_keys_present k v d old :
  dict_get k d = Some old -> (dict_set k v d).*1 = d.*1.
Proof.
  induction d as [|[k0 v0] d IH]; intros H; [discriminate|].
  cbn [dict_get] in H. cbn [dict_set].
  destruct (String.eqb k k0) eqn:E; rewrite !fmap_cons.
  - apply String.eqb_eq in E. subst. reflexivity.
  - rewrite (IH H). reflexivity.
Qed.

Lemma dict_set_keys_absent k v d :
  dict_get k d = None -> (dict_set k v d).*1 = (d.*1 ++ [k])%list.
Proof.
  induction d as [|[k0 v0] d IH]; intros H; [reflexivity|].
  cbn [dict_get] in H. cbn [dict_set].
  destruct (String.eqb k k0) eqn:E; [discriminate|].
  rewrite !fmap_cons, (IH H). reflexivity.
Qed.

Lemma truthy_nonempty s : s <> "" -> truthy (Str s) = true.
Proof. intros N. simpl. apply String.eqb_neq in N. rewrite N. reflexivity. Qed.

(** What one call does to a key, whatever the name. *)
Lemma add_to_dict_keeps_details d name info opp k old :
  dict_get k d = Some old ->
  exists new, dict_get k (add_to_dict d name info opp) = Some new /\
              same_details new old.
Proof.
  intros H. unfold add_to_dict.
  destruct (truthy name && negb (isna name))%bool;
    [|exists old; split; [assumption | repeat split]].
  destruct name as [|n]; [exists old; split; [assumption | repeat split]|].
  destruct (String.eqb (Str.title n) k) eqn:E.
  - apply String.eqb_eq in E. subst k. rewrite H, dict_get_set_eq.
    eexists; split; [reflexivity | repeat split].
  - apply String.eqb_neq in E.
    destruct (dict_get (Str.title n) d); rewrite dict_get_set_ne by assumption;
      exists old; split; try assumption; repeat split.
Qed.

Lemma add_all_keeps_details us : forall d k old,
  dict_get k d = Some old ->
  exists new, dict_get k (add_all d us) = Some new /\ same_details new old.
Proof.
  induction us as [|u us IH]; intros d k old H; simpl.
  - exists old. split; [assumption | repeat split].
  - destruct (add_to_dict_keeps_details d u.1.1 u.1.2 u.2 k old H) as (mid & Hm & Sm).
    destruct (IH _ _ _ Hm) as (new & Hn & Sn).
    exists new. split; [assumption|].
    unfold same_details in *. intuition congruence.
Qed.

(** ** Order of strings and cells *)

Lemma str_compare_refl a : Str.compare a a = Eq.
Proof. induction a as [|c a IH]; simpl; [reflexivity|]. rewrite N.compare_refl. exact IH. Qed.

Lemma str_compare_antisym a : forall b, Str.compare b a = CompOpp (Str.compare a b).
Proof.
  induction a as [|x a IH]; intros [|y b]; simpl; try reflexivity.
  rewrite (N.compare_antisym (Char.code x) (Char.code y)).
  destruct (Char.code x ?= Char.code y)%N; simpl; auto.
Qed.

Lemma str_compare_trans_le a : forall b c,
  Str.compare a b <> Gt -> Str.compare b c <> Gt -> Str.compare a c <> Gt.
Proof.
  induction a as [|x a IH]; intros [|y b] [|z c]; simpl; try congruence.
  destruct (Char.code x ?= Char.code y)%N eqn:E1;
    destruct (Char.code y ?= Char.code z)%N eqn:E2; try congruence; intros H1 H2.
  - apply N.compare_eq in E1, E2. rewrite E1, E2, N.compare_refl. eauto.
  - apply N.compare_eq in E1. rewrite E1, E2. congruence.
  - apply N.compare_eq in E2. rewrite <- E2, E1. congruence.
  - rewrite N.compare_lt_iff in E1, E2.
    assert (L : (Char.code x < Char.code z)%N) by (etransitivity; eassumption).
    apply N.compare_lt_iff in L. rewrite L. congruence.
Qed.

Lemma str_leb_total a b : Str.leb a b = true \/ Str.leb b a = true.
Proof.
  unfold Str.leb. rewrite (str_compare_antisym a b).
  destruct (Str.compare a b); simpl; auto.
Qed.

Lemma str_leb_trans a b c : Str.leb a b = true -> Str.leb b c = true -> Str.leb a c = true.
Proof.
  unfold Str.leb. intros H1 H2.
  assert (G : Str.compare a c <> Gt).
  { apply (str_compare_trans_le a b c).
    - destruct (Str.compare a b); congruence.
    - destruct (Str.compare b c); congruence. }
  destruct (Str.compare a c); congruence.
Qed.

Lemma cell_leb_total a b : cell_leb a b = true \/ cell_leb b a = true.
Proof. destruct a, b; simpl; auto using str_leb_total. Qed.

Lemma cell_leb_trans a b c :
  cell_leb a b = true -> cell_leb b c = true -> cell_leb a c = true.
Proof. destruct a, b, c; simpl; eauto using str_leb_trans; congruence. Qed.

Lemma pair_leb_total a b : pair_leb a b = true \/ pair_leb b a = true.
Proof.
  unfold pair_leb.
  destruct (cell_leb_total a.1 b.1) as [H|H], (cell_leb_total a.2 b.2) as [G|G];
    rewrite ?H, ?G;
    destruct (cell_leb a.1 b.1) eqn:E1, (cell_leb b.1 a.1) eqn:E2; auto; congruence.
Qed.

Lemma pair_leb_trans a b c :
  pair_leb a b = true -> pair_leb b c = true -> pair_leb a c = true.
Proof.
  unfold pair_leb.
  destruct (cell_leb a.1 b.1) eqn:Eab; [|discriminate].
  destruct (cell_leb b.1 c.1) eqn:Ebc; [|intros _; destruct (cell_leb c.1 b.1); discriminate].
  rewrite (cell_leb_trans _ _ _ Eab Ebc).
  destruct (cell_leb b.1 a.1) eqn:Eba, (cell_leb c.1 b.1) eqn:Ecb; intros H1 H2.
  - rewrite (cell_leb_trans _ _ _ Ecb Eba). eauto using cell_leb_trans.
  - destruct (cell_leb c.1 a.1) eqn:Eca; [|reflexivity].
    rewrite (cell_leb_trans _ _ _ Eca Eab) in Ecb. discriminate.
  - destruct (cell_leb c.1 a.1) eqn:Eca; [|reflexivity].
    rewrite (cell_leb_trans _ _ _ Ebc Eca) in Eba. discriminate.
  - destruct (cell_leb c.1 a.1) eqn:Eca; [|reflexivity].
    rewrite (cell_leb_trans _ _ _ Ebc Eca) in Eba. discriminate.
Qed.



(** ** Insertion sort *)

Section InsertionFacts.
Context {A : Type} (le : A -> A -> bool).
Hypothesis le_total : forall a b, le a b = true \/ le b a = true.
Hypothesis le_trans : forall a b c, le a b = true -> le b c = true -> le a c = true.

Let R (a b : A) : Prop := le a b = true.

Lemma insert_sorted_perm x l : insert_sorted le x l ≡ₚ x :: l.
Proof.
induction l as [|y l IH]; simpl; [reflexivity|].
destruct (le x y); [reflexivity|].
rewrite IH. apply Permutation_swap.
Qed.

Lemma insertion_sort_perm l : insertion_sort le l ≡ₚ l.
Proof.
induction l as [|x l IH]; simpl; [reflexivity|].
rewrite insert_sorted_perm, IH. reflexivity.
Qed.

Lemma insert_sorted_sorted x l :
StronglySorted R l -> StronglySorted R (insert_sorted le x l).
Proof.
induction 1 as [|y l Hs IH Hy]; simpl.
- repeat constructor.
- destruct (le x y) eqn:E.
  + constructor; [constructor; assumption|].
    constructor; [exact E|].
    eapply Forall_impl; [exact Hy|]. intros z Hz. exact (le_trans _ _ _ E Hz).
  + constructor; [exact IH|].
    rewrite insert_sorted_perm. constructor; [|exact Hy].
    destruct (le_total x y) as [H|H]; [congruence | exact H].
Qed.

Lemma insertion_sort_sorted l : StronglySorted R (insertion_sort le l).
Proof.
  induction l as [|x l IH]; simpl; [constructor|].
  apply insert_sorted_sorted, IH.
Qed.
End InsertionFacts.

(** ** The two concrete kinds meet the promise of [argsort] *)

Section ArgsortFacts.
Context {K : Type} (le : K -> K -> bool) (ks : list K).

Let by_key (a b : nat * K) : bool := le a.2 b.2.
Let ordered (i j : nat) : Prop :=
forall a b, ks !! i = Some a -> ks !! j = Some b -> le a b = true.

Lemma indexed_fst : (indexed ks).*1 = seq 0 (length ks).
Proof.
unfold indexed. rewrite fmap_imap.
rewrite (imap_ext _ (fun j _ => j)) by reflexivity.
rewrite (imap_seq_0 ks (fun j => j)). apply list_fmap_id.
Qed.

Lemma indexed_lookup p : p ∈ indexed ks -> ks !! p.1 = Some p.2.
Proof.
intros (i & y & -> & H)%elem_of_lookup_imap. exact H.
Qed.

Lemma sorted_pairs_fst (ps : list (nat * K)) :
Forall (fun p => ks !! p.1 = Some p.2) ps ->
StronglySorted (fun a b => by_key a b = true) ps ->
StronglySorted ordered ps.*1.
Proof.
intros HP HS. induction HS as [|p ps HS IH Hp]; [constructor|].
apply Forall_cons in HP as [Pp Pps].
rewrite fmap_cons. constructor; [apply IH, Pps|].
rewrite Forall_fmap. rewrite Forall_forall in Hp, Pps |- *.
intros q Hq a b Ha Hb. simpl in *.
rewrite Pp in Ha. rewrite (Pps q Hq) in Hb.
injection Ha as <-. injection Hb as <-. exact (Hp q Hq).
Qed.

Lemma argsort_of_pairs_perm (ps : list (nat * K)) :
ps ≡ₚ indexed ks ->
(insertion_sort by_key ps).*1 ≡ₚ seq 0 (length ks).
Proof.
intros E. rewrite insertion_sort_perm, E, indexed_fst. reflexivity.
Qed.

Lemma argsort_of_pairs_sorted (ps : list (nat * K)) :
  (forall a b, le a b = true \/ le b a = true) ->
  (forall a b c, le a b = true -> le b c = true -> le a c = true) ->
  ps ≡ₚ indexed ks ->
  StronglySorted ordered (insertion_sort by_key ps).*1.
Proof.
  intros T Tr E. apply sorted_pairs_fst.
  - rewrite Forall_forall. intros p Hp. apply indexed_lookup.
    rewrite <- E, <- (insertion_sort_perm by_key ps). exact Hp.
  - apply insertion_sort_sorted; unfold by_key; eauto.
Qed.
End ArgsortFacts.

(** A stable kind, as [kind='stable'] would select. *)
Definition stable_kind : SortKind :=
  {| argsort := stable_argsort;
     argsort_perm := fun K le ks => argsort_of_pairs_perm le ks _ (reflexivity _);
     argsort_sorted := fun K le ks T Tr =>
       argsort_of_pairs_sorted le ks _ T Tr (reflexivity _) |}.


(** ** Indexers *)

Lemma omap_StronglySorted {A B : Type} (f : A -> option B)
    (R : A -> A -> Prop) (R' : B -> B -> Prop) (l : list A) :
  (forall x y x' y', R x y -> f x = Some x' -> f y = Some y' -> R' x' y') ->
  StronglySorted R l -> StronglySorted R' (omap f l).
Proof.
  intros H HS. induction HS as [|x l HS IH Hx]; [constructor|].
  cbn [omap list_omap]. destruct (f x) as [x'|] eqn:E; [|exact IH].
  constructor; [exact IH|].
  rewrite Forall_forall in Hx. rewrite Forall_forall.
  intros y' (y & Hy & Ey)%list_elem_of_omap. eauto.
Qed.



Lemma omap_lookup_seq_from {A : Type} (l : list A) : forall k : list A,
  omap (fun i => (k ++ l)%list !! i) (seq (length k) (length l)) = l.
Proof.
  induction l as [|x l IH]; intros k; [reflexivity|].
  cbn [length seq omap list_omap].
  rewrite list_lookup_middle by reflexivity. f_equal.
  specialize (IH (k ++ [x])%list).
  rewrite length_app, Nat.add_1_r, <- app_assoc in IH. exact IH.
Qed.

Lemma omap_lookup_seq {A : Type} (l : list A) :
  omap (fun i => l !! i) (seq 0 (length l)) = l.
Proof. exact (omap_lookup_seq_from l []). Qed.

Lemma take_perm df indexer :
  indexer ≡ₚ seq 0 (length df) -> take df indexer ≡ₚ df.
Proof.
  intros E. unfold take. rewrite E, omap_lookup_seq. reflexivity.
Qed.

Lemma take_sorted {K : Type} (key : Out.row -> K) (R : K -> K -> Prop) df indexer :
  StronglySorted
    (fun i j => forall a b, (key <$> df) !! i = Some a -> (key <$> df) !! j = Some b -> R a b)
    indexer ->
  StronglySorted (fun r r' => R (key r) (key r')) (take df indexer).
Proof.
  apply omap_StronglySorted.
  intros i j r r' H Hi Hj. apply H; rewrite list_lookup_fmap; [rewrite Hi | rewrite Hj]; reflexivity.
Qed.

Section NargsortFacts.
Context `{SortKind} {K : Type} (le : K -> K -> bool).
Hypothesis le_total : forall a b, le a b = true \/ le b a = true.
Hypothesis le_trans : forall a b c, le a b = true -> le b c = true -> le a c = true.

Lemma nargsort_perm items ascending :
nargsort le items ascending ≡ₚ seq 0 (length items).
Proof.
unfold nargsort. destruct ascending; [apply argsort_perm|].
rewrite reverse_Permutation, argsort_perm, length_reverse.
pose proof (omap_lookup_seq (reverse (seq 0 (length items)))) as E.
rewrite length_reverse, length_seq in E. rewrite E.
apply reverse_Permutation.
Qed.

Lemma nargsort_ascending items :
StronglySorted
  (fun i j => forall a b, items !! i = Some a -> items !! j = Some b -> le a b = true)
  (nargsort le items true).
Proof. apply argsort_sorted; assumption. Qed.

End NargsortFacts.

(** ** What [sort_dataframe] returns *)

Lemma lexsort_indexer_perm keys : lexsort_indexer keys ≡ₚ seq 0 (length keys).
Proof. apply (@argsort_perm stable_kind). Qed.

Lemma sort_dataframe_perm `{SortKind} df sort_by : sort_dataframe df sort_by ≡ₚ df.
Proof.
  unfold sort_dataframe.
  repeat match goal with |- context [String.eqb ?a ?b] => destruct (String.eqb a b) end;
    try reflexivity; apply take_perm.
  - rewrite nargsort_perm, length_fmap. reflexivity.
  - rewrite lexsort_indexer_perm, length_fmap. reflexivity.
  - rewrite nargsort_perm, length_fmap. reflexivity.
  - rewrite nargsort_perm, length_fmap. reflexivity.
Qed.

Lemma sort_by_name_sorted `{SortKind} df :
  StronglySorted (fun r r' => name_key_leb r r' = true) (sort_dataframe df "name").
Proof.
  unfold sort_dataframe. cbn [String.eqb Ascii.eqb Bool.eqb].
  apply (take_sorted (fun r => custom_sort_key (Out.name r))
           (fun a b => Str.leb a b = true)).
  apply nargsort_ascending; [apply str_leb_total | apply str_leb_trans].
Qed.

Lemma sort_by_city_sorted `{SortKind} df :
  StronglySorted (fun r r' => city_state_leb r r' = true) (sort_dataframe df "city").
Proof.
  unfold sort_dataframe. cbn [String.eqb Ascii.eqb Bool.eqb].
  apply (take_sorted (fun r => (Out.city r, Out.state r))
           (fun a b => pair_leb a b = true)).
  apply (@argsort_sorted stable_kind); [apply pair_leb_total | apply pair_leb_trans].
Qed.


Lemma add_to_dict_new d name info opp :
  name <> "" -> dict_get (Str.title name) d = None ->
  dict_get (Str.title name) (add_to_dict d (Str name) info opp)
    = Some (new_contact info opp).
Proof.
  intros N H. unfold add_to_dict. rewrite (truthy_nonempty name N).
  cbn [isna negb andb]. rewrite H. apply dict_get_set_eq.
Qed.

Lemma add_to_dict_existing d name info opp old :
  name <> "" -> dict_get (Str.title name) d = Some old ->
  add_to_dict d (Str name) info opp
    = dict_set (Str.title name) (update_contact old opp) d.
Proof.
  intros N H. unfold add_to_dict. rewrite (truthy_nonempty name N).
  cbn [isna negb andb]. rewrite H. reflexivity.
Qed.

Lemma getitem_cases df row label :
  (has_column df label = true /\ getitem df row label = Ok (row label)) \/
  (has_column df label = false /\ getitem df row label = Raise (KeyError label)).
Proof. unfold getitem. destruct (has_column df label); auto. Qed.

(** Two rows whose keys are strictly ordered come out in that order, whatever
    the kind. *)
Lemma sort_by_name_two `{SortKind} (r1 r2 : Out.row) :
  name_key_leb r1 r2 = false ->
  sort_dataframe [r1; r2] "name" = [r2; r1].
Proof.
  intros N.
  pose proof (sort_by_name_sorted [r1; r2]) as S.
  pose proof (sort_dataframe_perm [r1; r2] "name") as P.
  symmetry in P. apply Permutation_length_2_inv in P as [E | E]; [|exact E].
  rewrite E in S. apply StronglySorted_inv in S as [_ F].
  apply Forall_inv in F. congruence.
Qed.

(** ** The pipeline on small frames *)

Lemma add_to_dict_fresh d name info opp :
  name <> "" -> dict_get (Str.title name) d = None ->
  add_to_dict d (Str name) info opp
    = dict_set (Str.title name) (new_contact info opp) d.
Proof.
  intros N H. unfold add_to_dict. rewrite (truthy_nonempty name N).
  cbn [isna negb andb]. rewrite H. reflexivity.
Qed.

(** A row of a frame that has the required columns, when the secondary slot
    is not taken. *)
Lemma process_row_primary_only df d row :
  (forall c, c ∈ required_columns -> has_column df c = true) ->
  secondary_skipped df row = true ->
  process_row df d row
  = Ok (add_to_dict d (row "primary_contact_full_name")
          {| info_email := row "primary_contact_email";
             info_phone := row "primary_contact_phone";
             info_state := row "State";
             info_city := row "City";
             info_agency := row "agency" |}
          (row "sub_tier", row "title")).
Proof.
  intros R S. unfold process_row, getitem.
  rewrite !R by (unfold required_columns;
                 repeat first [apply list_elem_of_here | apply list_elem_of_further]).
  cbn [mbind result_bind]. unfold add_secondary. unfold secondary_skipped in S.
  destruct (has_column df "secondary_contact_full_name"); [|reflexivity].
  cbn [andb] in S.
  destruct (truthy (row "secondary_contact_full_name") &&
            negb (isna (row "secondary_contact_full_name")))%bool;
    [discriminate S | reflexivity].
Qed.

Lemma set_iter_singleton `{SetOrder} (c : cell) : set_iter {[ c ]} = [c].
Proof.
  apply Permutation_singleton_r. rewrite set_iter_perm, elements_singleton.
  reflexivity.
Qed.

Lemma set_iter_pair `{SetOrder} (a b : cell) :
  a <> b -> set_iter ({[ a ]} ∪ {[ b ]}) = [a; b] \/ set_iter ({[ a ]} ∪ {[ b ]}) = [b; a].
Proof.
  intros N. apply Permutation_length_2_inv. symmetry.
  rewrite set_iter_perm, elements_union_singleton by set_solver.
  rewrite elements_singleton. reflexivity.
Qed.

Lemma sort_dataframe_singleton `{SortKind} (r : Out.row) sort_by :
  sort_dataframe [r] sort_by = [r].
Proof. apply Permutation_singleton_r, sort_dataframe_perm. Qed.

(** ** Counting the slots of a key *)

Lemma maps_to_skipped name key :
  (truthy name && negb (isna name))%bool = false -> maps_to name key = false.
Proof.
  destruct name as [|s]; [reflexivity|]. simpl.
  rewrite andb_true_r. intros ->. reflexivity.
Qed.

Lemma add_to_dict_count d name info opp key :
  count_of (add_to_dict d name info opp) key
  = count_of d key + one_if (maps_to name key).
Proof.
  unfold add_to_dict.
  destruct (truthy name && negb (isna name))%bool eqn:G;
    [|rewrite (maps_to_skipped name key G); simpl; lia].
  destruct name as [|s]; [discriminate G|].
  simpl in G. rewrite andb_true_r in G. simpl. rewrite G. simpl.
  unfold count_of.
  destruct (String.eqb (Str.title s) key) eqn:E.
  - apply String.eqb_eq in E. subst key.
    destruct (dict_get (Str.title s) d) as [old|]; rewrite dict_get_set_eq; simpl; lia.
  - apply String.eqb_neq in E.
    destruct (dict_get (Str.title s) d) as [old|];
      rewrite dict_get_set_ne by exact E; simpl; lia.
Qed.

Lemma dict_get_None k d : dict_get k d = None <-> k ∉ d.*1.
Proof.
  induction d as [|[k0 v0] d IH]; cbn [dict_get]; rewrite ?fmap_cons; cbn [fst].
  - split; [intros _; apply not_elem_of_nil | reflexivity].
  - rewrite not_elem_of_cons. destruct (String.eqb k k0) eqn:E.
    + apply String.eqb_eq in E. split; [discriminate | tauto].
    + apply String.eqb_neq in E. rewrite IH. tauto.
Qed.

Lemma dict_get_of_elem k v d : NoDup d.*1 -> (k, v) ∈ d -> dict_get k d = Some v.
Proof.
  induction d as [|[k0 v0] d IH]; [intros _ H; inversion H|].
  rewrite fmap_cons, NoDup_cons. cbn [fst dict_get]. intros [Hk Hd] H.
  apply elem_of_cons in H as [H | H].
  - injection H as -> ->. rewrite String.eqb_refl. reflexivity.
  - destruct (String.eqb k k0) eqn:E; [|auto].
    apply String.eqb_eq in E. subst k0. exfalso. apply Hk.
    apply list_elem_of_fmap. exists (k, v). split; [reflexivity | exact H].
Qed.

Lemma add_to_dict_wf d name info opp : dict_wf d -> dict_wf (add_to_dict d name info opp).
Proof.
  intros [ND POS]. unfold add_to_dict.
  destruct (truthy name && negb (isna name))%bool; [|split; assumption].
  destruct name as [|s]; [split; assumption|].
  destruct (dict_get (Str.title s) d) as [old|] eqn:G; split.
  - erewrite dict_set_keys_present by exact G. exact ND.
  - intros k v. destruct (String.eqb (Str.title s) k) eqn:E.
    + apply String.eqb_eq in E. subst k. rewrite dict_get_set_eq.
      intros [= <-]. simpl. specialize (POS _ _ G). lia.
    + apply String.eqb_neq in E. rewrite dict_get_set_ne by exact E. apply POS.
  - rewrite dict_set_keys_absent by exact G.
    apply NoDup_app. split; [exact ND|]. split; [|apply NoDup_singleton].
    intros k Hk Hk'%list_elem_of_singleton. subst k.
    apply dict_get_None in G. contradiction.
  - intros k v. destruct (String.eqb (Str.title s) k) eqn:E.
    + apply String.eqb_eq in E. subst k. rewrite dict_get_set_eq.
      intros [= <-]. simpl. lia.
    + apply String.eqb_neq in E. rewrite dict_get_set_ne by exact E. apply POS.
Qed.

Lemma add_secondary_inv df row opp d d' :
  add_secondary df row opp d = Ok d' ->
  exists info,
    d' = add_to_dict d
           (if has_column df "secondary_contact_full_name"
            then row "secondary_contact_full_name" else NaN)
           info opp.
Proof.
  unfold add_secondary.
  destruct (has_column df "secondary_contact_full_name") eqn:S;
    [|intros [= <-]; exists first_info; reflexivity].
  destruct (truthy (row "secondary_contact_full_name") &&
            negb (isna (row "secondary_contact_full_name")))%bool eqn:G.
  - repeat match goal with
           | |- context [getitem df row ?l] =>
               destruct (getitem_cases df row l) as [[_ ->] | [_ ->]];
               cbn [mbind result_bind]; [|discriminate]
           end.
    intros [= <-]. eexists. reflexivity.
  - intros [= <-]. exists first_info. unfold add_to_dict. rewrite G. reflexivity.
Qed.

Lemma process_row_inv df d row d' :
  process_row df d row = Ok d' ->
  (dict_wf d -> dict_wf d') /\
  forall key, count_of d' key = count_of d key + row_slots df row key.
Proof.
  unfold process_row.
  repeat match goal with
         | |- context [getitem df row ?l] =>
             destruct (getitem_cases df row l) as [[_ ->] | [_ ->]];
             cbn [mbind result_bind]; [|discriminate]
         end.
  intros (info & ->)%add_secondary_inv. split.
  - intros W. apply add_to_dict_wf, add_to_dict_wf, W.
  - intros key. rewrite !add_to_dict_count. unfold row_slots.
    destruct (has_column df "secondary_contact_full_name"); simpl; lia.
Qed.

Lemma process_rows_inv df rs : forall d d',
  process_rows df d rs = Ok d' ->
  (dict_wf d -> dict_wf d') /\
  forall key, count_of d' key = count_of d key + slots_of_rows df rs key.
Proof.
  induction rs as [|row rs IH]; intros d d'; cbn [process_rows slots_of_rows].
  - intros [= <-]. split; [auto | intros; lia].
  - destruct (process_row df d row) as [d1|e] eqn:E; cbn [mbind result_bind];
      [|discriminate].
    intros H. apply process_row_inv in E as [W1 C1]. apply IH in H as [W2 C2].
    split; [auto|]. intros key. rewrite C2, C1. lia.
Qed.

Lemma aggregate_inv df d :
  aggregate df = Ok d ->
  dict_wf d /\ forall key, count_of d key = slot_count df key.
Proof.
  intros H. apply process_rows_inv in H as [W C]. split.
  - apply W. split; [constructor | discriminate].
  - intros key. rewrite C. reflexivity.
Qed.

Lemma mapM_inv {A B : Type} (f : A -> result B) (l : list A) : forall l',
  mapM f l = Ok l' -> Forall2 (fun a b => f a = Ok b) l l'.
Proof.
  induction l as [|a l IH]; intros l'; cbn [mapM].
  - intros [= <-]. constructor.
  - destruct (f a) as [b|e] eqn:E; cbn [mbind result_bind]; [|discriminate].
    destruct (mapM f l) as [bs|e]; cbn [mbind result_bind]; [|discriminate].
    intros [= <-]. constructor; [exact E | apply IH; reflexivity].
Qed.

Lemma Forall2_impl_elem {A B : Type} (P Q : A -> B -> Prop) (l : list A) (k : list B) :
  Forall2 P l k -> (forall a b, a ∈ l -> P a b -> Q a b) -> Forall2 Q l k.
Proof.
  induction 1 as [|a b l k Hab F IH]; intros H; constructor.
  - apply H; [apply list_elem_of_here | exact Hab].
  - apply IH. intros a' b' Hin. apply H, list_elem_of_further, Hin.
Qed.

Lemma to_row_inv `{SetOrder} k v r :
  to_row (k, v) = Ok r ->
  Out.name r = k /\ Out.opportunity_count r = opportunity_count v.
Proof.
  unfold to_row. cbn [fst snd].
  destruct (join_set (departments v)); cbn [mbind result_bind]; [|discriminate].
  destruct (join_set (contract_types v)); cbn [mbind result_bind]; [|discriminate].
  intros [= <-]. split; reflexivity.
Qed.

Lemma format_name_inv r r' :
  format_name r = Ok r' ->
  clean_name (Str.title (Out.name r)) = Ok (Out.name r') /\
  Out.opportunity_count r' = Out.opportunity_count r.
Proof.
  unfold format_name.
  destruct (clean_name (Str.title (Out.name r))); cbn [mbind result_bind];
    [|discriminate].
  intros [= <-]. split; reflexivity.
Qed.

Lemma rows_of_keys df (d : dict) (rows1 rows2 : list Out.row) :
  Forall2 (fun p r => Out.name r = p.1 /\
                      Out.opportunity_count r = slot_count df p.1) d rows1 ->
  Forall2 (fun a b => format_name a = Ok b) rows1 rows2 ->
  Forall2 (row_of_key df) d.*1 rows2.
Proof.
  intros F1. revert rows2.
  induction F1 as [|p r ps rs [Hn Hc] F1 IH]; intros rows2 M2;
    inversion M2 as [|? r' ? rs' Hf M2']; subst; [constructor|].
  rewrite fmap_cons. constructor; [|apply IH, M2'].
  apply format_name_inv in Hf as [Hf1 Hf2]. split; congruence.
Qed.

(** * The claims *)

(** C1, as stated (the later row overwrites), fails: after a first sighting
    with [first_info] and a second one of the same key with [later_info], the
    record does not hold the details of [later_info]. *)
Lemma second_sighting_does_not_overwrite :
  let d := add_to_dict [] (Str "jane smith") first_info
             (Str "Logistics", Str "Widget Supply") in
  let d' := add_to_dict d (Str "JANE SMITH") later_info
              (Str "Logistics", Str "Gadget Supply") in
  email <$> dict_get "Jane Smith" d' = Some (Str "jane@first.example") /\
  ~ (exists r, dict_get "Jane Smith" d' = Some r /\ details_of later_info r).
Proof.
  split; [vm_compute; reflexivity|].
  intros (r & Hr & He & _).
  assert (E : email <$> dict_get "Jane Smith"
                (add_to_dict
                   (add_to_dict [] (Str "jane smith") first_info
                      (Str "Logistics", Str "Widget Supply"))
                   (Str "JANE SMITH") later_info
                   (Str "Logistics", Str "Gadget Supply"))
              = Some (Str "jane@first.example")) by (vm_compute; reflexivity).
  rewrite Hr in E. cbn in E. rewrite He in E. discriminate E.
Qed.

(** C1, amended: the email, phone, state, city and agency of a record are
    those of the call that created it; no later call of [add_to_dict], for
    the same key or another, changes them (the first writer wins). *)
Theorem contact_details_first_writer_wins
    (d : dict) (name : string) (info : contact_info) (opp : cell * cell)
    (later : list upsert) :
  name <> "" ->
  dict_get (Str.title name) d = None ->
  exists final,
    dict_get (Str.title name) (add_all (add_to_dict d (Str name) info opp) later)
      = Some final /\
    details_of info final.
Proof.
  intros N H.
  destruct (add_all_keeps_details later _ _ _ (add_to_dict_new d name info opp N H))
    as (final & Hf & S).
  exists final. split; [exact Hf|].
  unfold same_details, details_of, new_contact in *. cbn in S. exact S.
Qed.

Lemma contact_details_first_writer_wins_witness :
  "jane smith" <> "" /\
  dict_get (Str.title "jane smith") [] = None /\
  exists final,
    dict_get (Str.title "jane smith")
      (add_all (add_to_dict [] (Str "jane smith") first_info
                  (Str "Logistics", Str "Widget Supply"))
         [(Str "JANE SMITH", later_info, (Str "Logistics", Str "Gadget Supply"))])
      = Some final /\
    details_of first_info final.
Proof.
  split; [discriminate|]. split; [reflexivity|].
  apply (contact_details_first_writer_wins [] "jane smith" first_info
           (Str "Logistics", Str "Widget Supply")
           [(Str "JANE SMITH", later_info, (Str "Logistics", Str "Gadget Supply"))]).
  - discriminate.
  - reflexivity.
Defined.

(** C2: two rows whose primary names are the letters of jane smith in any
    casing, with the titles Widget Supply and Gadget Supply and the
    department Logistics twice, and without a secondary contact, give one
    dictionary entry under the key
    Jane Smith, the title-cased name, and one output row: name Jane Smith,
    count 2, departments Logistics, and contract types made of the two
    titles, in the order the set hands them out. *)
Theorem same_name_in_two_casings_is_one_row
    (order : SetOrder) (kind : SortKind) (df : DataFrame)
    (r1 r2 : string -> cell) (n1 n2 sort_by : string) :
  rows df = [r1; r2] ->
  (forall c, c ∈ required_columns -> has_column df c = true) ->
  secondary_skipped df r1 = true ->
  secondary_skipped df r2 = true ->
  r1 "primary_contact_full_name" = Str n1 ->
  r2 "primary_contact_full_name" = Str n2 ->
  Str.lower n1 = "jane smith" ->
  Str.lower n2 = "jane smith" ->
  r1 "title" = Str "Widget Supply" ->
  r2 "title" = Str "Gadget Supply" ->
  r1 "sub_tier" = Str "Logistics" ->
  r2 "sub_tier" = Str "Logistics" ->
  (exists v, aggregate df = Ok [(Str.title n1, v)] /\ Str.title n1 = "Jane Smith") /\
  exists types,
    main df sort_by
    = Ok [ {| Out.name := "Jane Smith";
              Out.email := r1 "primary_contact_email";
              Out.phone_number := r1 "primary_contact_phone";
              Out.state := r1 "State";
              Out.city := r1 "City";
              Out.agency := r1 "agency";
              Out.opportunity_count := 2;
              Out.associated_departments := "Logistics";
              Out.contract_types := types |} ] /\
    (types = "Widget Supply, Gadget Supply" \/ types = "Gadget Supply, Widget Supply").
Proof.
  intros Hrows Hreq Hsec1 Hsec2 P1 P2 L1 L2 T1 T2 S1 S2.
  assert (K1 : Str.title n1 = "Jane Smith").
  { unfold Str.title. rewrite <- title_from_lower, L1. reflexivity. }
  assert (K2 : Str.title n2 = "Jane Smith").
  { unfold Str.title. rewrite <- title_from_lower, L2. reflexivity. }
  assert (N1 : n1 <> "") by (intros ->; discriminate L1).
  assert (N2 : n2 <> "") by (intros ->; discriminate L2).
  assert (A : aggregate df
              = Ok [("Jane Smith",
                     update_contact
                       (new_contact
                          {| info_email := r1 "primary_contact_email";
                             info_phone := r1 "primary_contact_phone";
                             info_state := r1 "State";
                             info_city := r1 "City";
                             info_agency := r1 "agency" |}
                          (Str "Logistics", Str "Widget Supply"))
                       (Str "Logistics", Str "Gadget Supply"))]).
  { unfold aggregate. rewrite Hrows. cbn [process_rows].
    rewrite (process_row_primary_only df [] r1 Hreq Hsec1). cbn [mbind result_bind].
    rewrite (process_row_primary_only df _ r2 Hreq Hsec2). cbn [mbind result_bind].
    rewrite P1, P2, T1, T2, S1, S2.
    rewrite (add_to_dict_fresh [] n1) by (rewrite ?K1; done).
    rewrite K1. cbn [dict_set].
    erewrite (add_to_dict_existing _ n2); [|exact N2|rewrite K2; reflexivity].
    rewrite K2. reflexivity. }
  split; [rewrite K1; eauto|].
  unfold main. rewrite A. cbn [mbind result_bind mapM to_row fst snd].
  cbn [update_contact new_contact departments contract_types fst snd].
  unfold to_row, join_set.
  cbn [update_contact new_contact departments contract_types fst snd].
  rewrite (union_idemp_L ({[ Str "Logistics" ]} : gset cell)), set_iter_singleton.
  cbn [mapM expect_str mbind result_bind Str.join].
  destruct (set_iter_pair (Str "Widget Supply") (Str "Gadget Supply") ltac:(discriminate))
    as [E | E]; rewrite E;
    cbn [mapM expect_str mbind result_bind Str.join]; unfold format_name;
    cbn [Out.name];
    (replace (clean_name (Str.title "Jane Smith")) with (@Ok string "Jane Smith")
      by reflexivity);
    cbn [mbind result_bind]; rewrite sort_dataframe_singleton;
    eexists; (split; [reflexivity|]); [left | right]; reflexivity.
Qed.

Lemma same_name_in_two_casings_is_one_row_witness :
  exists types,
    @main elements_order stable_kind jane_twice "name"
    = Ok [ {| Out.name := "Jane Smith";
              Out.email := Str "jane@first.example";
              Out.phone_number := NaN;
              Out.state := NaN;
              Out.city := NaN;
              Out.agency := NaN;
              Out.opportunity_count := 2;
              Out.associated_departments := "Logistics";
              Out.contract_types := types |} ] /\
    (types = "Widget Supply, Gadget Supply" \/ types = "Gadget Supply, Widget Supply").
Proof.
  refine (proj2 (same_name_in_two_casings_is_one_row elements_order stable_kind
                   jane_twice _ _ "jane smith" "JANE Smith" "name"
                   eq_refl _ eq_refl eq_refl eq_refl eq_refl eq_refl eq_refl
                   eq_refl eq_refl eq_refl eq_refl)).
  intros c Hc. unfold required_columns in Hc.
  repeat (apply elem_of_cons in Hc as [-> | Hc]; [reflexivity|]).
  apply elem_of_nil in Hc. destruct Hc.
Defined.

(** C3: when the pipeline produces an output, its rows are, one for one, the
    identity keys to which at least one contact slot maps (the keys of the
    dictionary, each once), and the count of each row is the number of
    primary and secondary slots whose name maps to its key, a repeated
    opportunity title counted each time. *)
Theorem opportunity_count_counts_slots
    (order : SetOrder) (kind : SortKind) (df : DataFrame) (sort_by : string)
    (out : list Out.row) :
  main df sort_by = Ok out ->
  exists (d : dict) (keys : list string),
    aggregate df = Ok d /\
    keys ≡ₚ d.*1 /\
    NoDup keys /\
    (forall k, k ∈ keys <-> 0 < slot_count df k) /\
    (forall k v, dict_get k d = Some v -> opportunity_count v = slot_count df k) /\
    Forall2 (row_of_key df) keys out.
Proof.
  unfold main.
  destruct (aggregate df) as [d|e] eqn:A; cbn [mbind result_bind]; [|discriminate].
  destruct (mapM to_row d) as [rows1|e] eqn:M1; cbn [mbind result_bind]; [|discriminate].
  destruct (mapM format_name rows1) as [rows2|e] eqn:M2; cbn [mbind result_bind];
    [|discriminate].
  intros [= <-].
  apply aggregate_inv in A as [[ND POS] C].
  assert (V : forall k v, dict_get k d = Some v -> opportunity_count v = slot_count df k).
  { intros k v G. rewrite <- C. unfold count_of. rewrite G. reflexivity. }
  assert (F : Forall2 (row_of_key df) d.*1 rows2).
  { apply mapM_inv in M1, M2.
    assert (F1 : Forall2 (fun p r => Out.name r = p.1 /\
                                     Out.opportunity_count r = slot_count df p.1) d rows1).
    { eapply Forall2_impl_elem; [exact M1|].
      intros [k v] r Hin T. apply to_row_inv in T as [T1 T2]. cbn [fst].
      split; [exact T1|]. rewrite T2. apply V, dict_get_of_elem; assumption. }
    exact (rows_of_keys df d rows1 rows2 F1 M2). }
  pose proof (sort_dataframe_perm rows2 sort_by) as P. symmetry in P.
  apply Forall2_flip in F.
  destruct (Permutation_Forall2 P F) as (keys & PK & FK).
  apply Forall2_flip in FK.
  exists d, keys. split; [reflexivity|]. split; [symmetry; exact PK|].
  split; [rewrite <- PK; exact ND|]. split; [|split; [exact V | exact FK]].
  intros k. rewrite <- PK, <- C. unfold count_of. split.
  - intros Hk. destruct (dict_get k d) as [v|] eqn:G.
    + specialize (POS _ _ G). lia.
    + apply dict_get_None in G. contradiction.
  - intros Hk. destruct (dict_get k d) as [v|] eqn:G; [|lia].
    destruct (decide (k ∈ d.*1)) as [I|I]; [exact I|].
    apply dict_get_None in I. congruence.
Qed.

Lemma opportunity_count_counts_slots_witness :
  exists (d : dict) (keys : list string),
    aggregate three_rows = Ok d /\
    keys ≡ₚ d.*1 /\
    NoDup keys /\
    (forall k, k ∈ keys <-> 0 < slot_count three_rows k) /\
    (forall k v, dict_get k d = Some v -> opportunity_count v = slot_count three_rows k) /\
    Forall2 (row_of_key three_rows) keys
      [ {| Out.name := "Jane Smith";
           Out.email := NaN;
           Out.phone_number := NaN;
           Out.state := NaN;
           Out.city := NaN;
           Out.agency := NaN;
           Out.opportunity_count := 3;
           Out.associated_departments := "Logistics, Supply";
           Out.contract_types := "Widget Supply, Gadget Supply" |};
        {| Out.name := "Bob Jones";
           Out.email := NaN;
           Out.phone_number := NaN;
           Out.state := NaN;
           Out.city := NaN;
           Out.agency := NaN;
           Out.opportunity_count := 2;
           Out.associated_departments := "Logistics, Supply";
           Out.contract_types := "Widget Supply, Gadget Supply" |} ].
Proof.
  apply (opportunity_count_counts_slots elements_order stable_kind three_rows
           "opportunity").
  vm_compute. reflexivity.
Defined.

(** C4, as stated (the number 5551234 lands in the phone field), fails: the
    six words make [clean_name] return at its first test; the first run of
    digits of the text is 555; and a frame whose only row has this name and
    no phone comes out with the name N/A and the phone still missing. *)
Lemma long_telephone_note_extracts_no_phone :
  let note := "Telephone: 555-1234 call anytime please" in
  let df := {| columns := required_columns;
               rows := [row_of [("sub_tier", Str "Logistics");
                                ("title", Str "Widget Supply");
                                ("primary_contact_full_name", Str note)]] |} in
  clean_name note = Ok "N/A" /\
  Re.first_digits note = Some "555" /\
  @main elements_order stable_kind df "name"
    = Ok [ {| Out.name := "N/A";
              Out.email := NaN;
              Out.phone_number := NaN;
              Out.state := NaN;
              Out.city := NaN;
              Out.agency := NaN;
              Out.opportunity_count := 1;
              Out.associated_departments := "Logistics";
              Out.contract_types := "Widget Supply" |} ].
Proof. repeat split; vm_compute; reflexivity. Qed.

(** C4, amended: a name of more than four words, the text
    [Telephone: 555-1234 call anytime please] among them, is cleaned to N/A
    by the first test of [clean_name], with or without the [Telephone:]
    marker; nothing is extracted, and the row keeps the phone it had. *)
Theorem long_name_is_na_and_keeps_phone (name : string) (r : Out.row) :
  (4 < Str.count_words name)%nat ->
  clean_name name = Ok "N/A" /\
  (Str.title (Out.name r) = name ->
   exists r', format_name r = Ok r' /\ Out.name r' = "N/A" /\
              Out.phone_number r' = Out.phone_number r).
Proof.
  intros L.
  assert (C : clean_name name = Ok "N/A").
  { unfold clean_name.
    destruct (Z.ltb_spec 4 (Z.of_nat (Str.count_words name))); [reflexivity | lia]. }
  split; [exact C|].
  intros E. unfold format_name. rewrite E, C. cbn [mbind result_bind].
  eexists. split; [reflexivity|]. split; reflexivity.
Qed.

Lemma long_name_is_na_and_keeps_phone_witness :
  let note := "Telephone: 555-1234 call anytime please" in
  (4 < Str.count_words note)%nat /\
  clean_name note = Ok "N/A" /\
  clean_name "please call the front desk" = Ok "N/A".
Proof.
  intros note.
  split; [vm_compute; lia|]. split.
  - apply (long_name_is_na_and_keeps_phone note (sample_row note "VA" "Norfolk" 1)).
    vm_compute. lia.
  - apply (long_name_is_na_and_keeps_phone "please call the front desk"
             (sample_row "x" "VA" "Norfolk" 1)).
    vm_compute. lia.
Defined.

(** C5, as stated (state before city), fails: of a row in Zeta, AL and a row
    in Alpha, WY the policy [city] puts the second first, because Alpha is
    below Zeta, although AL is below WY. *)
Lemma city_policy_not_state_first :
  let df := [sample_row "Ann" "AL" "Zeta" 1; sample_row "Bob" "WY" "Alpha" 1] in
  @sort_dataframe stable_kind df "city"
    = [sample_row "Bob" "WY" "Alpha" 1; sample_row "Ann" "AL" "Zeta" 1]
  /\ ~ StronglySorted (fun r r' => state_city_leb r r' = true)
         (@sort_dataframe stable_kind df "city").
Proof.
  split; [vm_compute; reflexivity|].
  intros HS. vm_compute in HS.
  apply StronglySorted_inv in HS as [_ F].
  apply Forall_inv in F. vm_compute in F. discriminate F.
Qed.

(** C5, amended: under the policy [city] the output holds the rows of the
    input ordered by the pair (city, state), the city first and the state
    among equal cities, a missing value after every string. *)
Theorem sort_by_city_orders_city_then_state (kind : SortKind) (df : list Out.row) :
  sort_dataframe df "city" ≡ₚ df /\
  StronglySorted (fun r r' => city_state_leb r r' = true) (sort_dataframe df "city").
Proof. split; [apply sort_dataframe_perm | apply sort_by_city_sorted]. Qed.



(** C7, evaluated where the code misses it: the two prefixes are stripped, so
    the two spellings of Jane Smith get one key; but the key zzz of N/A is
    below the key of a cleaned name that starts with a brace, and whatever
    the kind of sort the pipeline puts the N/A row before that row, not
    after it. *)
Theorem na_row_sorts_before_brace_name (kind : SortKind) :
  custom_sort_key "(Reserve) Dr. Jane Smith" = custom_sort_key "Jane Smith" /\
  clean_name (Str.title "{tbd}") = Ok "{Tbd}" /\
  clean_name (Str.title "please call the front desk") = Ok "N/A" /\
  custom_sort_key "N/A" = "zzz" /\
  custom_sort_key "{Tbd}" = "{Tbd}" /\
  Str.ltb "zzz" "{Tbd}" = true /\
  @main elements_order kind placeholder_and_note "name"
  = Ok [bare_row "N/A"; bare_row "{Tbd}"].
Proof.
  repeat (split; [reflexivity|]).
  transitivity (Ok (sort_dataframe [bare_row "{Tbd}"; bare_row "N/A"] "name")).
  - vm_compute. reflexivity.
  - f_equal. apply sort_by_name_two. reflexivity.
Qed.

(** C8: a contact slot whose name is missing or empty leaves the dictionary
    as it is and raises nothing: [add_to_dict] returns the dictionary it was
    given, the secondary slot of such a row returns it too, and a row whose
    primary name is such, in a frame with the required columns, does exactly
    what its secondary slot does on the unchanged dictionary. *)
Theorem null_name_slot_changes_nothing
    (df : DataFrame) (row : string -> cell) (d : dict) (name : cell)
    (info : contact_info) (opp : cell * cell) :
  name = NaN \/ name = Str "" ->
  add_to_dict d name info opp = d /\
  (row "secondary_contact_full_name" = name -> add_secondary df row opp d = Ok d) /\
  (row "primary_contact_full_name" = name ->
   (forall c, c ∈ required_columns -> has_column df c = true) ->
   process_row df d row = add_secondary df row (row "sub_tier", row "title") d).
Proof.
  intros Hn.
  assert (A : forall d0 i o, add_to_dict d0 name i o = d0)
    by (intros; destruct Hn; subst name; reflexivity).
  split; [apply A|]. split.
  - intros E. unfold add_secondary. rewrite E.
    destruct (has_column df "secondary_contact_full_name"); [|reflexivity].
    destruct Hn; subst name; reflexivity.
  - intros E R. unfold process_row, getitem.
    rewrite !R by (unfold required_columns;
                   repeat first [apply list_elem_of_here | apply list_elem_of_further]).
    cbn [mbind result_bind]. rewrite E, A. reflexivity.
Qed.

Lemma null_name_slot_changes_nothing_witness :
  let df := {| columns := "secondary_contact_full_name" :: required_columns;
               rows := [] |} in
  let row := row_of [("sub_tier", Str "Logistics"); ("title", Str "Widget Supply")] in
  let d := add_to_dict [] (Str "jane smith") first_info
             (Str "Logistics", Str "Widget Supply") in
  (NaN = NaN \/ NaN = Str "") /\
  add_to_dict d NaN later_info (Str "Logistics", Str "Gadget Supply") = d /\
  add_secondary df row (Str "Logistics", Str "Gadget Supply") d = Ok d /\
  process_row df d row = Ok d.
Proof.
  intros df row d.
  destruct (null_name_slot_changes_nothing df row d NaN later_info
              (Str "Logistics", Str "Gadget Supply") (or_introl eq_refl))
    as (A & B & C).
  split; [left; reflexivity|]. split; [exact A|]. split; [exact (B eq_refl)|].
  reflexivity.
Defined.

(** C9: a call of [add_to_dict] whose key is already in the dictionary
    leaves the email, phone, state, city and agency of the record as they
    were; the count grows by one, the department and the title join the two
    sets, and no other key and no position changes. *)
Theorem add_to_dict_existing_key_frame
    (d : dict) (name : string) (info : contact_info) (opp : cell * cell)
    (old : contact) :
  name <> "" ->
  dict_get (Str.title name) d = Some old ->
  exists new,
    dict_get (Str.title name) (add_to_dict d (Str name) info opp) = Some new /\
    same_details new old /\
    opportunity_count new = opportunity_count old + 1 /\
    departments new = departments old ∪ {[ opp.1 ]} /\
    contract_types new = contract_types old ∪ {[ opp.2 ]} /\
    (forall k, k <> Str.title name ->
               dict_get k (add_to_dict d (Str name) info opp) = dict_get k d) /\
    (add_to_dict d (Str name) info opp).*1 = d.*1.
Proof.
  intros N H. rewrite (add_to_dict_existing d name info opp old N H).
  exists (update_contact old opp). split; [apply dict_get_set_eq|].
  split; [repeat split|]. split; [reflexivity|]. split; [reflexivity|].
  split; [reflexivity|]. split.
  - intros k Hk. apply dict_get_set_ne. congruence.
  - eapply dict_set_keys_present. exact H.
Qed.

Lemma add_to_dict_existing_key_frame_witness :
  let d := add_to_dict [] (Str "jane smith") first_info
             (Str "Logistics", Str "Widget Supply") in
  "JANE SMITH" <> "" /\
  dict_get (Str.title "JANE SMITH") d
    = Some (new_contact first_info (Str "Logistics", Str "Widget Supply")) /\
  exists new,
    dict_get (Str.title "JANE SMITH")
      (add_to_dict d (Str "JANE SMITH") later_info
         (Str "Logistics", Str "Gadget Supply")) = Some new /\
    email new = Str "jane@first.example" /\
    opportunity_count new = 2.
Proof.
  split; [discriminate|]. split; [reflexivity|].
  destruct (add_to_dict_existing_key_frame
              (add_to_dict [] (Str "jane smith") first_info
                 (Str "Logistics", Str "Widget Supply"))
              "JANE SMITH" later_info (Str "Logistics", Str "Gadget Supply")
              (new_contact first_info (Str "Logistics", Str "Widget Supply"))
              ltac:(discriminate) eq_refl)
    as (new & Hn & (He & _) & Hc & _).
  exists new. split; [exact Hn|]. split; [exact He | exact Hc].
Defined.

(** C10: a name of at most four words that starts, after optional white
    space, with [Telephone:] never comes back from [clean_name]: the branch
    raises, a [NameError] on [new_df] when the name holds a digit (an
    [IndexError] on the empty list of digit runs when it holds none), so the
    row is not produced and no phone number is written. *)
Theorem clean_name_telephone_raises (name : string) (r : Out.row) :
  Re.match_telephone name = true ->
  (Str.count_words name <= 4)%nat ->
  exists e,
    clean_name name = Raise e /\
    (e = NameError "new_df" \/ e = IndexError) /\
    (is_Some (Re.first_digits name) -> e = NameError "new_df") /\
    (Str.title (Out.name r) = name -> format_name r = Raise e).
Proof.
  intros M L.
  assert (C : clean_name name
              = Raise (match Re.first_digits name with
                       | Some _ => NameError "new_df"
                       | None => IndexError
                       end)).
  { unfold clean_name.
    destruct (Z.ltb_spec 4 (Z.of_nat (Str.count_words name))); [lia|].
    rewrite M. destruct (Re.first_digits name); reflexivity. }
  eexists. split; [exact C|]. split; [|split].
  - destruct (Re.first_digits name); auto.
  - intros [d ->]. reflexivity.
  - intros E. unfold format_name. rewrite E, C. reflexivity.
Qed.

Lemma clean_name_telephone_raises_witness :
  Re.match_telephone "  Telephone: 555-1234" = true /\
  (Str.count_words "  Telephone: 555-1234" <= 4)%nat /\
  clean_name "  Telephone: 555-1234" = Raise (NameError "new_df").
Proof.
  split; [reflexivity|]. split; [vm_compute; lia|].
  destruct (clean_name_telephone_raises "  Telephone: 555-1234"
              (sample_row "x" "VA" "Norfolk" 1) eq_refl ltac:(vm_compute; lia))
    as (e & C & _ & D & _).
  rewrite C. f_equal. apply D. eexists. reflexivity.
Defined.

(** * Further properties *)

(** ** The loop is a sequence of calls of [add_to_dict] *)

Lemma key_of_maps_to name key : maps_to name key = true <-> key_of name = Some key.
Proof.
  destruct name as [|s]; simpl; [split; discriminate|].
  destruct (String.eqb s ""); simpl; [split; discriminate|].
  rewrite String.eqb_eq. split; congruence.
Qed.

Lemma add_to_dict_skip d name info opp :
  key_of name = None -> add_to_dict d name info opp = d.
Proof.
  destruct name as [|s]; [reflexivity|]. unfold add_to_dict. simpl.
  destruct (String.eqb s ""); [reflexivity | discriminate].
Qed.

Lemma add_to_dict_filed d name info opp key :
  key_of name = Some key ->
  add_to_dict d name info opp
  = dict_set key
      (match dict_get key d with
       | Some old => update_contact old opp
       | None => new_contact info opp
       end) d.
Proof.
  destruct name as [|s]; [discriminate|]. unfold add_to_dict. simpl.
  destruct (String.eqb s ""); [discriminate|]. intros [= <-]. simpl.
  destruct (dict_get (Str.title s) d); reflexivity.
Qed.

Lemma add_all_app d us1 us2 :
  add_all d (us1 ++ us2)%list = add_all (add_all d us1) us2.
Proof. apply foldl_app. Qed.

Lemma process_row_add_all df d row d' :
  process_row df d row = Ok d' -> d' = add_all d (row_upserts df row).
Proof.
  unfold process_row.
  repeat match goal with
         | |- context [getitem df row ?l] =>
             destruct (getitem_cases df row l) as [[_ ->] | [_ ->]];
             cbn [mbind result_bind]; [|discriminate]
         end.
  unfold add_secondary, row_upserts.
  destruct (has_column df "secondary_contact_full_name") eqn:S;
    [|intros [= <-]; reflexivity].
  destruct (truthy (row "secondary_contact_full_name") &&
            negb (isna (row "secondary_contact_full_name")))%bool eqn:G.
  - unfold getitem. rewrite S. cbn [mbind result_bind].
    repeat match goal with
           | |- context [has_column df ?l] =>
               destruct (has_column df l); cbn [mbind result_bind]; [|discriminate]
           end.
    intros [= <-]. reflexivity.
  - intros [= <-]. cbn [add_all foldl primary_upsert secondary_upsert fst snd].
    symmetry. unfold add_to_dict at 1. rewrite G. reflexivity.
Qed.

Lemma process_rows_add_all df rs : forall d d',
  process_rows df d rs = Ok d' -> d' = add_all d (rows_upserts df rs).
Proof.
  induction rs as [|row rs IH]; intros d d'; cbn [process_rows].
  - intros [= <-]. reflexivity.
  - destruct (process_row df d row) as [d1|e] eqn:E; cbn [mbind result_bind];
      [|discriminate].
    intros H. apply process_row_add_all in E. apply IH in H. subst d1 d'.
    unfold rows_upserts. rewrite fmap_cons. cbn [concat].
    rewrite add_all_app. reflexivity.
Qed.

(** ** One call of [add_to_dict], seen from any key *)

Lemma dict_get_add_to_dict d name info opp key :
  dict_get key (add_to_dict d name info opp)
  = if maps_to name key
    then Some (match dict_get key d with
               | Some old => update_contact old opp
               | None => new_contact info opp
               end)
    else dict_get key d.
Proof.
  destruct (key_of name) as [k|] eqn:K.
  - rewrite (add_to_dict_filed d name info opp k K).
    destruct (maps_to name key) eqn:M.
    + apply key_of_maps_to in M. assert (k = key) by congruence. subst k.
      apply dict_get_set_eq.
    + apply dict_get_set_ne. intros ->.
      apply key_of_maps_to in K. congruence.
  - rewrite (add_to_dict_skip d name info opp K).
    destruct (maps_to name key) eqn:M; [|reflexivity].
    apply key_of_maps_to in M. congruence.
Qed.

Lemma add_to_dict_keys d name info opp :
  (add_to_dict d name info opp).*1
  = match key_of name with
    | Some k => if decide (k ∈ d.*1) then d.*1 else (d.*1 ++ [k])%list
    | None => d.*1
    end.
Proof.
  destruct (key_of name) as [k|] eqn:K.
  - rewrite (add_to_dict_filed d name info opp k K).
    destruct (dict_get k d) as [old|] eqn:G.
    + rewrite (dict_set_keys_present _ _ _ _ G).
      destruct (decide (k ∈ d.*1)) as [I|I]; [reflexivity|].
      apply dict_get_None in I. congruence.
    + rewrite (dict_set_keys_absent _ _ _ G).
      destruct (decide (k ∈ d.*1)) as [I|I]; [|reflexivity].
      apply dict_get_None in G. contradiction.
  - rewrite (add_to_dict_skip d name info opp K). reflexivity.
Qed.

Lemma info_of_new info opp : info_of (new_contact info opp) = info.
Proof. destruct info. reflexivity. Qed.

Lemma add_to_dict_info d name info opp key :
  info_at (add_to_dict d name info opp) key
  = match info_at d key with
    | Some x => Some x
    | None => if maps_to name key then Some info else None
    end.
Proof.
  unfold info_at. rewrite dict_get_add_to_dict.
  destruct (maps_to name key), (dict_get key d); cbn; try reflexivity.
  rewrite info_of_new. reflexivity.
Qed.

Lemma add_to_dict_departments d name info opp key :
  departments_at (add_to_dict d name info opp) key
  = departments_at d key ∪ (if maps_to name key then {[ opp.1 ]} else ∅).
Proof.
  unfold departments_at. rewrite dict_get_add_to_dict.
  destruct (maps_to name key), (dict_get key d); cbn;
    rewrite ?union_empty_l_L, ?union_empty_r_L; reflexivity.
Qed.

Lemma add_to_dict_titles d name info opp key :
  titles_at (add_to_dict d name info opp) key
  = titles_at d key ∪ (if maps_to name key then {[ opp.2 ]} else ∅).
Proof.
  unfold titles_at. rewrite dict_get_add_to_dict.
  destruct (maps_to name key), (dict_get key d); cbn;
    rewrite ?union_empty_l_L, ?union_empty_r_L; reflexivity.
Qed.

Lemma size_add_one (X : gset cell) (x : cell) :
  (size X <= size (X ∪ {[ x ]}) <= size X + 1)%nat.
Proof.
  split.
  - apply subseteq_size, union_subseteq_l.
  - rewrite size_union_alt.
    assert (size ({[ x ]} ∖ X) <= size ({[ x ]} : gset cell))%nat
      by (apply subseteq_size, subseteq_difference_l; reflexivity).
    rewrite size_singleton in *. lia.
Qed.

Lemma add_to_dict_contact_ok d name info opp :
  (forall k v, dict_get k d = Some v -> contact_ok v) ->
  forall k v, dict_get k (add_to_dict d name info opp) = Some v -> contact_ok v.
Proof.
  intros H k v. rewrite dict_get_add_to_dict.
  destruct (maps_to name k); [|apply H].
  destruct (dict_get k d) as [old|] eqn:G; intros [= <-].
  - destruct (H _ _ G) as (A & B & C & D).
    pose proof (size_add_one (departments old) opp.1).
    pose proof (size_add_one (contract_types old) opp.2).
    unfold contact_ok. cbn. lia.
  - unfold contact_ok. cbn. rewrite !size_singleton. lia.
Qed.

(** ** Title-casing twice *)

Lemma to_upper_cased c : Char.is_cased (Char.to_upper c) = Char.is_cased c.
Proof. destruct c as [[] [] [] [] [] [] [] []]; reflexivity. Qed.

Lemma to_upper_idem c : Char.to_upper (Char.to_upper c) = Char.to_upper c.
Proof. destruct c as [[] [] [] [] [] [] [] []]; reflexivity. Qed.

Lemma to_lower_upper c : Char.to_lower (Char.to_upper c) = Char.to_lower c.
Proof. destruct c as [[] [] [] [] [] [] [] []]; reflexivity. Qed.

Lemma title_from_idem s : forall b,
  Str.title_from b (Str.title_from b s) = Str.title_from b s.
Proof.
  induction s as [|c s IH]; intros b; [reflexivity|]. cbn [Str.title_from].
  destruct (Char.is_cased c) eqn:E; cbn [Str.title_from].
  - destruct b.
    + rewrite to_lower_cased, E, to_lower_idem, IH. reflexivity.
    + rewrite to_upper_cased, E, to_upper_idem, IH. reflexivity.
  - rewrite E, IH. reflexivity.
Qed.

Lemma title_nonempty s : s <> "" -> Str.title s <> "".
Proof.
  destruct s as [|c s]; [congruence|]. intros _. unfold Str.title.
  cbn [Str.title_from]. destruct (Char.is_cased c); discriminate.
Qed.

Lemma key_of_titled name k : key_of name = Some k -> k <> "" /\ Str.title k = k.
Proof.
  destruct name as [|s]; [discriminate|]. simpl.
  destruct (String.eqb s "") eqn:E; [discriminate|]. intros [= <-].
  apply String.eqb_neq in E. split; [apply title_nonempty, E|].
  apply title_from_idem.
Qed.

(** ** A sequence of calls, seen from any key *)

Lemma bool_decide_key_of name key :
  bool_decide (key_of name = Some key) = maps_to name key.
Proof.
  destruct (maps_to name key) eqn:M.
  - apply bool_decide_eq_true, key_of_maps_to, M.
  - apply bool_decide_eq_false. rewrite <- key_of_maps_to. congruence.
Qed.

Lemma add_all_info us key : forall d,
  info_at (add_all d us) key
  = match info_at d key with
    | Some x => Some x
    | None => upsert_info <$> first_sighting us key
    end.
Proof.
  induction us as [|u us IH]; intros d; cbn [add_all foldl].
  - destruct (info_at d key); reflexivity.
  - fold (add_all (add_to_dict d u.1.1 u.1.2 u.2) us).
    rewrite IH, add_to_dict_info. unfold first_sighting. cbn [find].
    rewrite bool_decide_key_of. change (upsert_name u) with u.1.1.
    destruct (info_at d key); [reflexivity|].
    destruct (maps_to u.1.1 key); reflexivity.
Qed.

Lemma sighted_departments_cons u us key :
  sighted_departments (u :: us) key
  = ((if maps_to (upsert_name u) key then [(upsert_opportunity u).1] else [])
     ++ sighted_departments us key)%list.
Proof.
  unfold sighted_departments. rewrite filter_cons.
  rewrite <- bool_decide_key_of.
  destruct (decide (key_of (upsert_name u) = Some key)) as [E|E].
  - rewrite (bool_decide_eq_true_2 _ E). reflexivity.
  - rewrite (bool_decide_eq_false_2 _ E). reflexivity.
Qed.

Lemma sighted_titles_cons u us key :
  sighted_titles (u :: us) key
  = ((if maps_to (upsert_name u) key then [(upsert_opportunity u).2] else [])
     ++ sighted_titles us key)%list.
Proof.
  unfold sighted_titles. rewrite filter_cons.
  rewrite <- bool_decide_key_of.
  destruct (decide (key_of (upsert_name u) = Some key)) as [E|E].
  - rewrite (bool_decide_eq_true_2 _ E). reflexivity.
  - rewrite (bool_decide_eq_false_2 _ E). reflexivity.
Qed.

Lemma add_all_departments us key c : forall d,
  c ∈ departments_at (add_all d us) key
  <-> c ∈ departments_at d key \/ c ∈ sighted_departments us key.
Proof.
  induction us as [|u us IH]; intros d; cbn [add_all foldl].
  - unfold sighted_departments. rewrite filter_nil, fmap_nil, elem_of_nil. tauto.
  - fold (add_all (add_to_dict d u.1.1 u.1.2 u.2) us).
    rewrite IH, add_to_dict_departments, sighted_departments_cons.
    unfold upsert_name, upsert_opportunity.
    destruct (maps_to u.1.1 key); rewrite elem_of_union, elem_of_app.
    + rewrite elem_of_singleton, list_elem_of_singleton. tauto.
    + rewrite elem_of_empty, elem_of_nil. tauto.
Qed.

Lemma add_all_titles us key c : forall d,
  c ∈ titles_at (add_all d us) key
  <-> c ∈ titles_at d key \/ c ∈ sighted_titles us key.
Proof.
  induction us as [|u us IH]; intros d; cbn [add_all foldl].
  - unfold sighted_titles. rewrite filter_nil, fmap_nil, elem_of_nil. tauto.
  - fold (add_all (add_to_dict d u.1.1 u.1.2 u.2) us).
    rewrite IH, add_to_dict_titles, sighted_titles_cons.
    unfold upsert_name, upsert_opportunity.
    destruct (maps_to u.1.1 key); rewrite elem_of_union, elem_of_app.
    + rewrite elem_of_singleton, list_elem_of_singleton. tauto.
    + rewrite elem_of_empty, elem_of_nil. tauto.
Qed.

Lemma add_all_keys_elem us key : forall d,
  key ∈ (add_all d us).*1
  <-> key ∈ d.*1 \/ exists u, u ∈ us /\ key_of (upsert_name u) = Some key.
Proof.
  induction us as [|u us IH]; intros d; cbn [add_all foldl].
  - split; [auto|]. intros [H | (u & Hu & _)]; [exact H|]. inversion Hu.
  - fold (add_all (add_to_dict d u.1.1 u.1.2 u.2) us).
    rewrite IH, add_to_dict_keys. fold (upsert_name u).
    destruct (key_of (upsert_name u)) as [k|] eqn:K.
    + destruct (decide (k ∈ d.*1)) as [I|I]; [|rewrite elem_of_app, list_elem_of_singleton].
      * split; intros [H | (u' & Hu & Hk)]; auto.
        -- right. exists u'. split; [apply list_elem_of_further, Hu | exact Hk].
        -- apply elem_of_cons in Hu as [-> | Hu]; [|right; eauto].
           left. congruence.
      * split.
        -- intros [[H | ->] | (u' & Hu & Hk)]; auto.
           ++ right. exists u. split; [apply list_elem_of_here | exact K].
           ++ right. exists u'. split; [apply list_elem_of_further, Hu | exact Hk].
        -- intros [H | (u' & Hu & Hk)]; auto.
           apply elem_of_cons in Hu as [-> | Hu]; [|right; eauto].
           left. right. congruence.
    + split; intros [H | (u' & Hu & Hk)]; auto.
      * right. exists u'. split; [apply list_elem_of_further, Hu | exact Hk].
      * apply elem_of_cons in Hu as [-> | Hu]; [congruence | right; eauto].
Qed.

Lemma add_all_keys_Forall (P : string -> Prop) us :
  (forall u k, u ∈ us -> key_of (upsert_name u) = Some k -> P k) ->
  forall d, Forall P d.*1 -> Forall P (add_all d us).*1.
Proof.
  intros HP d Hd. rewrite Forall_forall in Hd |- *.
  intros k [H | (u & Hu & Hk)]%add_all_keys_elem; eauto.
Qed.

Lemma add_all_NoDup us : forall d, NoDup d.*1 -> NoDup (add_all d us).*1.
Proof.
  induction us as [|u us IH]; intros d H; cbn [add_all foldl]; [exact H|].
  apply IH. rewrite add_to_dict_keys.
  destruct (key_of u.1.1) as [k|]; [|exact H].
  destruct (decide (k ∈ d.*1)) as [I|I]; [exact H|].
  apply NoDup_app. split; [exact H|]. split; [|apply NoDup_singleton].
  intros x Hx ->%list_elem_of_singleton. contradiction.
Qed.

Lemma add_all_contact_ok us : forall d,
  (forall k v, dict_get k d = Some v -> contact_ok v) ->
  forall k v, dict_get k (add_all d us) = Some v -> contact_ok v.
Proof.
  induction us as [|u us IH]; intros d H; cbn [add_all foldl]; [exact H|].
  apply IH. apply add_to_dict_contact_ok, H.
Qed.

(** ** The stages of [main] *)

Lemma aggregate_add_all df d :
  aggregate df = Ok d -> d = add_all [] (frame_upserts df).
Proof. apply process_rows_add_all. Qed.



Lemma mapM_all_ok {A B : Type} (f : A -> result B) (l : list A) :
  (forall a, a ∈ l -> exists b, f a = Ok b) -> exists l', mapM f l = Ok l'.
Proof.
  induction l as [|a l IH]; intros H; cbn [mapM]; [eauto|].
  destruct (H a (list_elem_of_here _ _)) as [b ->]. cbn [mbind result_bind].
  destruct IH as [l' ->]; [intros a' Ha'; apply H, list_elem_of_further, Ha'|].
  cbn [mbind result_bind]. eauto.
Qed.

Lemma mapM_some_raise {A B : Type} (f : A -> result B) (l : list A) a e :
  a ∈ l -> f a = Raise e ->
  exists a' e', a' ∈ l /\ f a' = Raise e' /\ mapM f l = Raise e'.
Proof.
  induction l as [|x l IH]; intros Ha Hf; [inversion Ha|]. cbn [mapM].
  destruct (f x) as [b|e0] eqn:E.
  - apply elem_of_cons in Ha as [-> | Ha]; [congruence|].
    destruct (IH Ha Hf) as (a' & e' & Ha' & Hf' & ->).
    exists a', e'. split; [apply list_elem_of_further, Ha'|]. split; [exact Hf' | reflexivity].
  - exists x, e0. split; [apply list_elem_of_here|]. split; [exact E | reflexivity].
Qed.

Lemma expect_str_all_ok l items :
  mapM expect_str l = Ok items <-> l = Str <$> items.
Proof.
  revert items. induction l as [|c l IH]; intros items; cbn [mapM].
  - split; [intros [= <-]; reflexivity|]. destruct items; [reflexivity | discriminate].
  - destruct c as [|x]; cbn [expect_str mbind result_bind].
    + split; [discriminate|]. destruct items; discriminate.
    + destruct (mapM expect_str l) as [xs|e] eqn:E; cbn [mbind result_bind].
      * split.
        -- intros [= <-]. rewrite fmap_cons. f_equal. apply IH. reflexivity.
        -- destruct items as [|y ys]; [discriminate|]. rewrite fmap_cons.
           intros [= -> H]. apply IH in H. congruence.
      * split; [discriminate|]. destruct items as [|y ys]; [discriminate|].
        rewrite fmap_cons. intros [= -> H]. apply IH in H. discriminate.
Qed.

Lemma expect_str_raises l :
  NaN ∈ l -> mapM expect_str l = Raise TypeError.
Proof.
  induction l as [|c l IH]; intros H; [inversion H|]. cbn [mapM].
  destruct c as [|x]; [reflexivity|]. cbn [expect_str mbind result_bind].
  apply elem_of_cons in H as [H | H]; [discriminate|].
  rewrite (IH H). reflexivity.
Qed.

Lemma join_set_cases `{SetOrder} (s : gset cell) :
  ((NaN ∈ s) /\ join_set s = Raise TypeError) \/
  ((NaN ∉ s) /\ exists items,
      set_iter s = Str <$> items /\ join_set s = Ok (Str.join ", " items)).
Proof.
  unfold join_set. destruct (decide (NaN ∈ s)) as [I|I].
  - left. split; [exact I|]. rewrite expect_str_raises; [reflexivity|].
    rewrite set_iter_perm. apply elem_of_elements, I.
  - right. split; [exact I|].
    destruct (mapM_all_ok expect_str (set_iter s)) as [items E].
    { intros [|x] Hc; [|eexists; reflexivity].
      rewrite set_iter_perm in Hc. apply elem_of_elements in Hc. contradiction. }
    exists items. rewrite E. split; [apply expect_str_all_ok, E | reflexivity].
Qed.

Lemma to_row_raises `{SetOrder} entry e : to_row entry = Raise e -> e = TypeError.
Proof.
  unfold to_row.
  destruct (join_set_cases (departments entry.2)) as [[_ ->] | [_ (ds & _ & ->)]];
    cbn [mbind result_bind]; [congruence|].
  destruct (join_set_cases (contract_types entry.2)) as [[_ ->] | [_ (ts & _ & ->)]];
    cbn [mbind result_bind]; congruence.
Qed.

Lemma to_row_ok_iff `{SetOrder} entry :
  (exists r, to_row entry = Ok r) <->
  (NaN ∉ departments entry.2) /\ (NaN ∉ contract_types entry.2).
Proof.
  unfold to_row.
  destruct (join_set_cases (departments entry.2)) as [[I ->] | [I (ds & _ & ->)]];
    cbn [mbind result_bind].
  - split; [intros [r Hr]; discriminate | tauto].
  - destruct (join_set_cases (contract_types entry.2)) as [[J ->] | [J (ts & _ & ->)]];
      cbn [mbind result_bind].
    + split; [intros [r Hr]; discriminate | tauto].
    + split; [tauto | eauto].
Qed.

Lemma to_row_fields `{SetOrder} entry r :
  to_row entry = Ok r ->
  Out.name r = entry.1 /\
  info_of entry.2
  = {| info_email := Out.email r;
       info_phone := Out.phone_number r;
       info_state := Out.state r;
       info_city := Out.city r;
       info_agency := Out.agency r |} /\
  Out.opportunity_count r = opportunity_count entry.2 /\
  join_set (departments entry.2) = Ok (Out.associated_departments r) /\
  join_set (contract_types entry.2) = Ok (Out.contract_types r).
Proof.
  unfold to_row.
  destruct (join_set (departments entry.2)); cbn [mbind result_bind]; [|discriminate].
  destruct (join_set (contract_types entry.2)); cbn [mbind result_bind]; [|discriminate].
  intros [= <-]. repeat split.
Qed.

Lemma format_name_fields r r' :
  format_name r = Ok r' ->
  clean_name (Str.title (Out.name r)) = Ok (Out.name r') /\
  Out.email r' = Out.email r /\
  Out.phone_number r' = Out.phone_number r /\
  Out.state r' = Out.state r /\
  Out.city r' = Out.city r /\
  Out.agency r' = Out.agency r /\
  Out.opportunity_count r' = Out.opportunity_count r /\
  Out.associated_departments r' = Out.associated_departments r /\
  Out.contract_types r' = Out.contract_types r.
Proof.
  unfold format_name.
  destruct (clean_name (Str.title (Out.name r))); cbn [mbind result_bind];
    [|discriminate].
  intros [= <-]. repeat split.
Qed.

Lemma rows_from_entries `{SetOrder} (d : dict) (rows1 rows2 : list Out.row) :
  Forall2 (fun e r => to_row e = Ok r) d rows1 ->
  Forall2 (fun a b => format_name a = Ok b) rows1 rows2 ->
  Forall2 row_from d rows2.
Proof.
  intros F1. revert rows2.
  induction F1 as [|e r ps rs He F1 IH]; intros rows2 M2;
    inversion M2 as [|? r' ? rs' Hf M2']; subst; [constructor|].
  constructor; [|apply IH, M2'].
  apply to_row_fields in He as (A & B & C & D & E).
  apply format_name_fields in Hf as (F & G1 & G2 & G3 & G4 & G5 & G6 & G7 & G8).
  unfold row_from. rewrite G1, G2, G3, G4, G5, G6, G7, G8, <- A. auto.
Qed.

Lemma main_stages `{SetOrder} `{SortKind} df sort_by out :
  main df sort_by = Ok out ->
  exists d new_df,
    aggregate df = Ok d /\ Forall2 row_from d new_df /\
    out = sort_dataframe new_df sort_by.
Proof.
  unfold main.
  destruct (aggregate df) as [d|e] eqn:A; cbn [mbind result_bind]; [|discriminate].
  destruct (mapM to_row d) as [rows1|e] eqn:M1; cbn [mbind result_bind]; [|discriminate].
  destruct (mapM format_name rows1) as [rows2|e] eqn:M2; cbn [mbind result_bind];
    [|discriminate].
  intros [= <-]. apply mapM_inv in M1, M2.
  exists d, rows2. split; [reflexivity|]. split; [|reflexivity].
  exact (rows_from_entries d rows1 rows2 M1 M2).
Qed.



Lemma add_all_keys_order us :
  (add_all [] us).*1 = keys_by_first_sighting us.
Proof.
  unfold keys_by_first_sighting.
  induction us as [|u us IH] using rev_ind; [reflexivity|].
  rewrite add_all_app. cbn [add_all foldl]. rewrite add_to_dict_keys.
  fold (add_all [] us). fold (upsert_name u).
  rewrite omap_app. cbn [omap list_omap].
  destruct (key_of (upsert_name u)) as [k|].
  - rewrite reverse_app, reverse_singleton. cbn [app remove_dups].
    rewrite IH.
    destruct (decide_rel elem_of k (reverse (omap (fun u0 => key_of (upsert_name u0)) us)))
      as [I|I].
    + rewrite decide_True; [reflexivity|].
      rewrite elem_of_reverse, elem_of_remove_dups. exact I.
    + rewrite decide_False; [rewrite reverse_cons; reflexivity|].
      rewrite elem_of_reverse, elem_of_remove_dups. exact I.
  - rewrite app_nil_r. exact IH.
Qed.

(** ** The dictionary after the loop *)

(** X1: when the loop over the rows ends without an error, the dictionary is
    what the calls of [add_to_dict] for the primary and then the secondary
    contact of each row, in the order of the rows, build from the empty
    dictionary; a secondary contact is called for only when the frame has
    the column for its name. *)
Theorem aggregate_is_sequence_of_upserts (df : DataFrame) (d : dict) :
  aggregate df = Ok d -> d = add_all [] (frame_upserts df).
Proof. apply aggregate_add_all. Qed.

Lemma aggregate_is_sequence_of_upserts_witness :
  aggregate three_rows = Ok (add_all [] (frame_upserts three_rows)) /\
  add_all [] (frame_upserts three_rows) = add_all [] (frame_upserts three_rows).
Proof.
  split; [vm_compute; reflexivity|].
  apply (aggregate_is_sequence_of_upserts three_rows). vm_compute. reflexivity.
Defined.






(** X4: whatever the rows that follow, the email, phone, state, city and
    agency stored under a key are those of the first contact slot, in the
    order of the rows and primary before secondary, whose name is filed
    under that key. *)
Theorem stored_details_are_first_sighting (df : DataFrame) (d : dict) (key : string) :
  aggregate df = Ok d ->
  info_at d key = upsert_info <$> first_sighting (frame_upserts df) key.
Proof.
  intros ->%aggregate_add_all. rewrite add_all_info. reflexivity.
Qed.

Lemma stored_details_are_first_sighting_witness :
  info_at (add_all [] (frame_upserts three_rows)) "Bob Jones"
  = upsert_info <$> first_sighting (frame_upserts three_rows) "Bob Jones".
Proof.
  apply (stored_details_are_first_sighting three_rows). vm_compute. reflexivity.
Defined.

(** X5: the set of departments stored under a key holds exactly the
    [sub_tier] cells of the contact slots filed under that key, and the set
    of contract types exactly their [title] cells: nothing else gets in and
    nothing is dropped. *)
Theorem stored_sets_are_sighted_values
    (df : DataFrame) (d : dict) (key : string) (c : cell) :
  aggregate df = Ok d ->
  (c ∈ departments_at d key <-> c ∈ sighted_departments (frame_upserts df) key) /\
  (c ∈ titles_at d key <-> c ∈ sighted_titles (frame_upserts df) key).
Proof.
  intros ->%aggregate_add_all. rewrite add_all_departments, add_all_titles.
  unfold departments_at, titles_at. cbn [dict_get]. rewrite elem_of_empty. tauto.
Qed.

Lemma stored_sets_are_sighted_values_witness :
  let d := add_all [] (frame_upserts three_rows) in
  (Str "Supply" ∈ departments_at d "Jane Smith"
   <-> Str "Supply" ∈ sighted_departments (frame_upserts three_rows) "Jane Smith") /\
  (Str "Supply" ∈ titles_at d "Jane Smith"
   <-> Str "Supply" ∈ sighted_titles (frame_upserts three_rows) "Jane Smith").
Proof.
  apply (stored_sets_are_sighted_values three_rows). vm_compute. reflexivity.
Defined.

(** X6: in every record of the dictionary each of the two sets has at least
    one item and at most as many items as the record has opportunities. *)
Theorem stored_sets_bounded_by_count
    (df : DataFrame) (d : dict) (key : string) (v : contact) :
  aggregate df = Ok d ->
  dict_get key d = Some v ->
  contact_ok v.
Proof.
  intros ->%aggregate_add_all. apply add_all_contact_ok. intros k v0 H. discriminate H.
Qed.

Lemma stored_sets_bounded_by_count_witness :
  exists v,
    dict_get "Jane Smith" (add_all [] (frame_upserts three_rows)) = Some v /\
    contact_ok v.
Proof.
  eexists. split; [vm_compute; reflexivity|].
  eapply (stored_sets_bounded_by_count three_rows _ "Jane Smith");
    vm_compute; reflexivity.
Defined.

(** X7: the keys of the dictionary stand in the order in which their first
    contact slot occurs in the frame, rows in order and primary before
    secondary. *)
Theorem dictionary_keys_in_order_of_first_sighting (df : DataFrame) (d : dict) :
  aggregate df = Ok d -> d.*1 = keys_by_first_sighting (frame_upserts df).
Proof. intros ->%aggregate_add_all. apply add_all_keys_order. Qed.

Lemma dictionary_keys_in_order_of_first_sighting_witness :
  (add_all [] (frame_upserts three_rows)).*1 = ["Jane Smith"; "Bob Jones"] /\
  keys_by_first_sighting (frame_upserts three_rows) = ["Jane Smith"; "Bob Jones"].
Proof.
  split; [vm_compute; reflexivity|].
  rewrite <- (dictionary_keys_in_order_of_first_sighting three_rows
                (add_all [] (frame_upserts three_rows))).
  - vm_compute. reflexivity.
  - vm_compute. reflexivity.
Defined.

(** ** The output rows *)

Lemma sort_dataframe_unrecognised `{SortKind} df sort_by :
  sort_by ∉ policies -> sort_dataframe df sort_by = df.
Proof.
  intros N. unfold sort_dataframe.
  repeat match goal with
         | |- context [String.eqb sort_by ?p] =>
             destruct (String.eqb sort_by p) eqn:E;
             [apply String.eqb_eq in E; subst sort_by; exfalso; apply N;
              unfold policies;
              repeat first [apply list_elem_of_here | apply list_elem_of_further]
             |clear E]
         end.
  reflexivity.
Qed.

(** X8: with a value of [SORTING_PARAMETER] that is none of the four
    policies, the output has one row for each key of the dictionary, in the
    order in which the keys were first sighted in the input, and the name of
    each row is its key cleaned. *)
Theorem unsorted_output_follows_first_sighting
    (order : SetOrder) (kind : SortKind) (df : DataFrame) (sort_by : string)
    (out : list Out.row) :
  sort_by ∉ policies ->
  main df sort_by = Ok out ->
  Forall2 (fun k r => clean_name k = Ok (Out.name r))
    (keys_by_first_sighting (frame_upserts df)) out.
Proof.
  intros N (d & new_df & A & F & ->)%main_stages.
  rewrite (sort_dataframe_unrecognised new_df sort_by N).
  pose proof A as A'. apply aggregate_add_all in A'.
  rewrite <- add_all_keys_order, <- A'.
  assert (T : Forall (fun k => k <> "" /\ Str.title k = k) d.*1).
  { subst d. apply add_all_keys_Forall; [|constructor].
    intros u k0 _. apply key_of_titled. }
  rewrite Forall_forall in T.
  apply Forall2_fmap_l. eapply Forall2_impl_elem; [exact F|].
  intros [k v] r Hin (C & _). cbn [fst] in *.
  assert (Tk : Str.title k = k).
  { apply (T k). apply list_elem_of_fmap. exists (k, v). split; [reflexivity | exact Hin]. }
  rewrite Tk in C. exact C.
Qed.

Lemma unsorted_output_follows_first_sighting_witness :
  exists out,
    @main elements_order stable_kind three_rows "none" = Ok out /\
    Forall2 (fun k r => clean_name k = Ok (Out.name r))
      (keys_by_first_sighting (frame_upserts three_rows)) out.
Proof.
  eexists. split; [vm_compute; reflexivity|].
  apply (unsorted_output_follows_first_sighting elements_order stable_kind
           three_rows "none").
  - unfold policies. intros H.
    repeat (apply elem_of_cons in H as [H | H]; [discriminate H|]).
    inversion H.
  - vm_compute. reflexivity.
Defined.






(** ** Where the pipeline raises *)

Lemma clean_name_cases name :
  (telephone_note name = true /\
   exists e, clean_name name = Raise e /\ (e = NameError "new_df" \/ e = IndexError)) \/
  (telephone_note name = false /\ exists c, clean_name name = Ok c).
Proof.
  unfold telephone_note, clean_name.
  destruct (4 <? Z.of_nat (Str.count_words name)); cbn [negb andb]; [right; eauto|].
  destruct (Re.match_telephone name); [left | right; eauto].
  split; [reflexivity|].
  destruct (Re.first_digits name); cbn [mbind result_bind]; eauto.
Qed.

Lemma taken_iff_key name :
  (truthy name && negb (isna name))%bool = true <-> is_Some (key_of name).
Proof.
  destruct name as [|s]; simpl.
  - split; [discriminate | intros [x Hx]; discriminate].
  - rewrite andb_true_r. destruct (String.eqb s ""); simpl.
    + split; [discriminate | intros [x Hx]; discriminate].
    + split; eauto.
Qed.

Lemma dict_get_elem k v d : dict_get k d = Some v -> (k, v) ∈ d.
Proof.
  induction d as [|[k0 v0] d IH]; cbn [dict_get]; [discriminate|].
  destruct (String.eqb k k0) eqn:E.
  - apply String.eqb_eq in E. intros [= ->]. subst. apply list_elem_of_here.
  - intros H. apply list_elem_of_further, IH, H.
Qed.

Lemma dict_get_of_key k d : k ∈ d.*1 -> exists v, dict_get k d = Some v.
Proof.
  intros H. destruct (dict_get k d) as [v|] eqn:G; [eauto|].
  apply dict_get_None in G. contradiction.
Qed.

Lemma sighted_departments_elem us key c :
  c ∈ sighted_departments us key
  <-> exists u, u ∈ us /\ key_of (upsert_name u) = Some key /\
                (upsert_opportunity u).1 = c.
Proof.
  unfold sighted_departments. rewrite list_elem_of_fmap. split.
  - intros (u & -> & [Hk Hu]%list_elem_of_filter). eauto.
  - intros (u & Hu & Hk & <-). exists u. split; [reflexivity|].
    apply list_elem_of_filter. split; assumption.
Qed.

Lemma sighted_titles_elem us key c :
  c ∈ sighted_titles us key
  <-> exists u, u ∈ us /\ key_of (upsert_name u) = Some key /\
                (upsert_opportunity u).2 = c.
Proof.
  unfold sighted_titles. rewrite list_elem_of_fmap. split.
  - intros (u & -> & [Hk Hu]%list_elem_of_filter). eauto.
  - intros (u & Hu & Hk & <-). exists u. split; [reflexivity|].
    apply list_elem_of_filter. split; assumption.
Qed.

(** The record of a key of the dictionary built by a sequence of calls. *)
Lemma add_all_record us k :
  (exists u, u ∈ us /\ key_of (upsert_name u) = Some k) ->
  exists v, dict_get k (add_all [] us) = Some v /\
            (forall c, c ∈ departments v <-> c ∈ sighted_departments us k) /\
            (forall c, c ∈ contract_types v <-> c ∈ sighted_titles us k).
Proof.
  intros H.
  destruct (dict_get_of_key k (add_all [] us)) as [v G].
  { apply add_all_keys_elem. right. exact H. }
  exists v. split; [exact G|]. split; intros c.
  - pose proof (add_all_departments us k c []) as S.
    unfold departments_at in S. rewrite G in S. cbn [dict_get] in S.
    rewrite S, elem_of_empty. tauto.
  - pose proof (add_all_titles us k c []) as S.
    unfold titles_at in S. rewrite G in S. cbn [dict_get] in S.
    rewrite S, elem_of_empty. tauto.
Qed.

Lemma format_name_raises r e :
  format_name r = Raise e -> e = NameError "new_df" \/ e = IndexError.
Proof.
  unfold format_name.
  destruct (clean_name_cases (Str.title (Out.name r)))
    as [[_ (e' & -> & He')] | [_ (c & ->)]]; cbn [mbind result_bind];
    [intros [= <-]; exact He' | discriminate].
Qed.

(** The run stops in the finalisation when a set holds a missing value. *)
Lemma main_raises_TypeError `{SetOrder} `{SortKind} df sort_by d u :
  aggregate df = Ok d ->
  u ∈ frame_upserts df ->
  is_Some (key_of (upsert_name u)) ->
  (upsert_opportunity u).1 = NaN \/ (upsert_opportunity u).2 = NaN ->
  main df sort_by = Raise TypeError.
Proof.
  intros A Hu [k Hk] Hn. unfold main. rewrite A. cbn [mbind result_bind].
  pose proof (aggregate_add_all df d A) as ->.
  destruct (add_all_record (frame_upserts df) k) as (v & G & D & T); [eauto|].
  assert (Bad : ~ exists r, to_row (k, v) = Ok r).
  { rewrite to_row_ok_iff. cbn [snd]. intros [ND NT]. destruct Hn as [E | E].
    - apply ND, D, sighted_departments_elem. eauto.
    - apply NT, T, sighted_titles_elem. eauto. }
  destruct (to_row (k, v)) as [r|e] eqn:E; [exfalso; eauto|].
  destruct (mapM_some_raise to_row _ (k, v) e (dict_get_elem _ _ _ G) E)
    as (a' & e' & _ & Ha' & ->).
  apply to_row_raises in Ha'. subst e'. reflexivity.
Qed.

(** The first stage of the finalisation succeeds when every call that files
    a name has strings for department and title. *)
Lemma to_rows_ok `{SetOrder} us :
  (forall u, u ∈ us -> opportunity_is_text u) ->
  exists rows1, mapM to_row (add_all [] us) = Ok rows1.
Proof.
  intros Htext. apply mapM_all_ok. intros [k v] Hin.
  assert (ND : NoDup (add_all [] us).*1) by (apply add_all_NoDup; constructor).
  pose proof (dict_get_of_elem k v _ ND Hin) as G.
  assert (Hk : exists u, u ∈ us /\ key_of (upsert_name u) = Some k).
  { assert (I : k ∈ (add_all [] us).*1).
    { apply list_elem_of_fmap. exists (k, v). split; [reflexivity | exact Hin]. }
    apply add_all_keys_elem in I as [I | I]; [inversion I | exact I]. }
  destruct (add_all_record us k Hk) as (v' & G' & D & T).
  assert (v' = v) by congruence. subst v'.
  apply to_row_ok_iff. cbn [snd]. split.
  - intros (u & Hu & Ku & E)%D%sighted_departments_elem.
    destruct (Htext u Hu) as [N | (dept & title & O)]; [congruence|].
    rewrite O in E. discriminate E.
  - intros (u & Hu & Ku & E)%T%sighted_titles_elem.
    destruct (Htext u Hu) as [N | (dept & title & O)]; [congruence|].
    rewrite O in E. discriminate E.
Qed.

Lemma to_rows_names `{SetOrder} (d : dict) rows1 :
  mapM to_row d = Ok rows1 -> Out.name <$> rows1 = d.*1.
Proof.
  intros M%mapM_inv. induction M as [|e r d rows1 He M IH]; [reflexivity|].
  rewrite !fmap_cons, IH. f_equal. apply to_row_fields in He as [-> _]. reflexivity.
Qed.

Lemma first_missing_none df :
  first_missing df = None -> forall c, c ∈ required_columns -> has_column df c = true.
Proof.
  intros H c Hc. apply list_elem_of_In in Hc.
  pose proof (find_none _ _ H c Hc) as N. cbn in N.
  destruct (has_column df c); [reflexivity | discriminate N].
Qed.

Lemma process_rows_secondary_raises df c rs :
  first_missing df = None ->
  missing_secondary df = Some c ->
  forall d,
    (exists row, row ∈ rs /\ is_Some (key_of (row "secondary_contact_full_name"))) ->
    process_rows df d rs = Raise (KeyError c).
Proof.
  intros R0 M. pose proof (first_missing_none df R0) as R. clear R0.
  induction rs as [|row rs IH]; intros d (row' & Hin & Hk); [inversion Hin|].
  cbn [process_rows]. unfold process_row, getitem.
  rewrite !R by (unfold required_columns;
                 repeat first [apply list_elem_of_here | apply list_elem_of_further]).
  cbn [mbind result_bind]. unfold add_secondary, getitem.
  unfold missing_secondary in M.
  destruct (has_column df "secondary_contact_full_name"); [|discriminate M].
  destruct (truthy (row "secondary_contact_full_name") &&
            negb (isna (row "secondary_contact_full_name")))%bool eqn:G.
  - cbn [mbind result_bind].
    destruct (has_column df "secondary_contact_email"); cbn [mbind result_bind];
      [|injection M as <-; reflexivity].
    destruct (has_column df "secondary_contact_phone"); cbn [mbind result_bind];
      [discriminate M | injection M as <-; reflexivity].
  - cbn [mbind result_bind]. apply IH. exists row'. split; [|exact Hk].
    apply elem_of_cons in Hin as [-> | Hin]; [|exact Hin].
    apply taken_iff_key in Hk. congruence.
Qed.

Lemma main_raises_on_telephone `{SetOrder} `{SortKind} df sort_by d u k :
  aggregate df = Ok d ->
  (forall u', u' ∈ frame_upserts df -> opportunity_is_text u') ->
  u ∈ frame_upserts df ->
  key_of (upsert_name u) = Some k ->
  telephone_note k = true ->
  exists e, main df sort_by = Raise e /\ (e = NameError "new_df" \/ e = IndexError).
Proof.
  intros A Htext Hu Hk Tel. unfold main. rewrite A. cbn [mbind result_bind].
  pose proof (aggregate_add_all df d A) as ->.
  destruct (to_rows_ok (frame_upserts df) Htext) as [rows1 M1]. rewrite M1.
  cbn [mbind result_bind].
  assert (I : k ∈ Out.name <$> rows1).
  { rewrite (to_rows_names _ _ M1). apply add_all_keys_elem. right. eauto. }
  apply list_elem_of_fmap in I as (r & Hr & Hin).
  destruct (key_of_titled _ _ Hk) as [_ T].
  destruct (clean_name_cases k) as [[_ (e & C & _)] | [N _]]; [|congruence].
  assert (F : format_name r = Raise e).
  { unfold format_name. rewrite <- Hr, T, C. reflexivity. }
  destruct (mapM_some_raise format_name rows1 r e Hin F) as (r' & e' & _ & F' & ->).
  exists e'. split; [reflexivity|]. apply (format_name_raises r' e' F').
Qed.


(** X11: when the frame has at least one row and lacks a required column,
    the run stops at the first row with a [KeyError] for the first column
    that is missing in the order in which the loop reads them. *)
Theorem missing_required_column_raises_KeyError
    (order : SetOrder) (kind : SortKind) (df : DataFrame) (sort_by c : string) :
  rows df <> [] ->
  first_missing df = Some c ->
  main df sort_by = Raise (KeyError c).
Proof.
  intros Hrows Hm. unfold main, aggregate.
  destruct (rows df) as [|row rs]; [congruence|].
  cbn [process_rows]. unfold process_row, getitem.
  unfold first_missing in Hm. cbn [find required_columns] in Hm.
  repeat match type of Hm with
         | context [has_column df ?l] =>
             destruct (has_column df l); cbn [negb] in Hm;
             [cbn [mbind result_bind] | injection Hm as <-; reflexivity]
         end.
  discriminate Hm.
Qed.

Lemma missing_required_column_raises_KeyError_witness :
  let df := {| columns := ["sub_tier"; "title"; "primary_contact_full_name"];
               rows := [row_of [("primary_contact_full_name", Str "jane smith")]] |} in
  @main elements_order stable_kind df "name"
  = Raise (KeyError "primary_contact_email").
Proof.
  intros df.
  apply (missing_required_column_raises_KeyError elements_order stable_kind df "name").
  - discriminate.
  - reflexivity.
Defined.

(** X12: when the frame has the required columns and the column for the
    secondary name but lacks the one for the secondary email or phone, a
    single row with a secondary name stops the run with a [KeyError] for
    the lacking column, the email one first. *)
Theorem missing_secondary_column_raises_KeyError
    (order : SetOrder) (kind : SortKind) (df : DataFrame) (sort_by c : string)
    (row : string -> cell) :
  first_missing df = None ->
  missing_secondary df = Some c ->
  row ∈ rows df ->
  is_Some (key_of (row "secondary_contact_full_name")) ->
  main df sort_by = Raise (KeyError c).
Proof.
  intros R M Hin Hk. unfold main, aggregate.
  rewrite (process_rows_secondary_raises df c (rows df) R M []); [reflexivity|].
  eauto.
Qed.

Lemma missing_secondary_column_raises_KeyError_witness :
  let row := row_of [("primary_contact_full_name", Str "jane smith");
                     ("secondary_contact_full_name", Str "bob jones")] in
  let df := {| columns := "secondary_contact_full_name" :: required_columns;
               rows := [row] |} in
  @main elements_order stable_kind df "name"
  = Raise (KeyError "secondary_contact_email").
Proof.
  intros row df.
  apply (missing_secondary_column_raises_KeyError elements_order stable_kind df
           "name" "secondary_contact_email" row).
  - reflexivity.
  - reflexivity.
  - apply list_elem_of_here.
  - eexists. reflexivity.
Defined.

(** X13: when the loop has gone through, one contact slot that has a name
    but whose [sub_tier] or [title] cell is missing stops the run with a
    [TypeError] in the joining of the sets, before any name is cleaned. *)
Theorem missing_department_or_title_raises_TypeError
    (order : SetOrder) (kind : SortKind) (df : DataFrame) (sort_by : string)
    (d : dict) (u : upsert) :
  aggregate df = Ok d ->
  u ∈ frame_upserts df ->
  is_Some (key_of (upsert_name u)) ->
  (upsert_opportunity u).1 = NaN \/ (upsert_opportunity u).2 = NaN ->
  main df sort_by = Raise TypeError.
Proof. apply main_raises_TypeError. Qed.

Lemma missing_department_or_title_raises_TypeError_witness :
  let row := row_of [("title", Str "Widget Supply");
                     ("primary_contact_full_name", Str "Telephone: 555-1234")] in
  let df := {| columns := required_columns; rows := [row] |} in
  @main elements_order stable_kind df "name" = Raise TypeError.
Proof.
  intros row df.
  apply (missing_department_or_title_raises_TypeError elements_order stable_kind df
           "name" (add_all [] (frame_upserts df)) (primary_upsert row)).
  - vm_compute. reflexivity.
  - apply list_elem_of_here.
  - eexists. reflexivity.
  - left. reflexivity.
Defined.

(** X14: when every contact slot with a name has a department and a title,
    one slot whose key is a [Telephone:] entry of at most four words stops
    the run: [main] raises the [NameError] on [new_df], or the [IndexError],
    of [clean_name], and hands no frame to the writer. *)
Theorem telephone_key_stops_the_run
    (order : SetOrder) (kind : SortKind) (df : DataFrame) (sort_by : string)
    (d : dict) (u : upsert) (k : string) :
  aggregate df = Ok d ->
  (forall u', u' ∈ frame_upserts df -> opportunity_is_text u') ->
  u ∈ frame_upserts df ->
  key_of (upsert_name u) = Some k ->
  telephone_note k = true ->
  exists e, main df sort_by = Raise e /\ (e = NameError "new_df" \/ e = IndexError).
Proof. apply main_raises_on_telephone. Qed.

Lemma telephone_key_stops_the_run_witness :
  let row := row_of [("sub_tier", Str "Logistics"); ("title", Str "Widget Supply");
                     ("primary_contact_full_name", Str "telephone: 555-1234")] in
  let df := {| columns := required_columns; rows := [row] |} in
  exists e,
    @main elements_order stable_kind df "name" = Raise e /\
    (e = NameError "new_df" \/ e = IndexError).
Proof.
  intros row df.
  apply (telephone_key_stops_the_run elements_order stable_kind df "name"
           (add_all [] (frame_upserts df)) (primary_upsert row) "Telephone: 555-1234").
  - vm_compute. reflexivity.
  - intros u' Hu'. apply list_elem_of_singleton in Hu'. subst u'.
    right. eexists _, _. reflexivity.
  - apply list_elem_of_here.
  - reflexivity.
  - reflexivity.
Defined.



(** ** The order of the output *)

Lemma sort_by_department_sorted `{SortKind} df :
  StronglySorted
    (fun r r' => Str.leb (Out.associated_departments r) (Out.associated_departments r') = true)
    (sort_dataframe df "department").
Proof.
  unfold sort_dataframe. cbn [String.eqb Ascii.eqb Bool.eqb].
  apply (take_sorted Out.associated_departments (fun a b => Str.leb a b = true)).
  apply nargsort_ascending; [apply str_leb_total | apply str_leb_trans].
Qed.

Lemma sorted_after {A : Type} (R : A -> A -> Prop) (l l1 l2 : list A) (x y : A) :
  StronglySorted R l -> l = (l1 ++ x :: l2)%list -> y ∈ l2 -> R x y.
Proof.
  intros S -> Hy. apply StronglySorted_app_1_r in S.
  apply StronglySorted_inv in S as [_ F]. rewrite Forall_forall in F. auto.
Qed.

(** X16: whatever the value of [sort_by] and the kind of sort,
    [sort_dataframe] returns the rows it was given, each as many times as it
    was there: no row is lost, added or changed. *)
Theorem sort_dataframe_keeps_the_rows
    (kind : SortKind) (df : list Out.row) (sort_by : string) :
  sort_dataframe df sort_by ≡ₚ df /\
  length (sort_dataframe df sort_by) = length df.
Proof.
  pose proof (sort_dataframe_perm df sort_by) as P.
  split; [exact P | rewrite P; reflexivity].
Qed.

(** X17: under the policy [name] the rows come out with their sort keys, the
    names without a parenthesised prefix and without Dr. or Lt., ascending
    in the order of the code points. *)
Theorem sort_by_name_orders_by_key (kind : SortKind) (df : list Out.row) :
  StronglySorted
    (fun r r' => Str.leb (custom_sort_key (Out.name r)) (custom_sort_key (Out.name r')) = true)
    (sort_dataframe df "name").
Proof. apply sort_by_name_sorted. Qed.

(** X18: under the policy [department] the rows come out with their joined
    department strings ascending in the order of the code points. *)
Theorem sort_by_department_orders_by_joined_string (kind : SortKind) (df : list Out.row) :
  StronglySorted
    (fun r r' => Str.leb (Out.associated_departments r) (Out.associated_departments r') = true)
    (sort_dataframe df "department").
Proof. apply sort_by_department_sorted. Qed.

(** X19: under the policy [name] every row that comes after a row named N/A
    has a sort key that starts with the letter z or with a character above
    it: a row whose key starts below z, or is empty, is never after an N/A
    row. *)
Theorem rows_after_na_start_at_z
    (kind : SortKind) (df l1 l2 : list Out.row) (r r' : Out.row) :
  sort_dataframe df "name" = (l1 ++ r :: l2)%list ->
  Out.name r = "N/A" ->
  r' ∈ l2 ->
  exists c rest,
    custom_sort_key (Out.name r') = String c rest /\ (122 <= Char.code c)%N.
Proof.
  intros E Hn Hr'.
  pose proof (sorted_after _ _ l1 l2 r r' (sort_by_name_sorted df) E Hr') as L.
  unfold name_key_leb in L. rewrite Hn in L.
  change (custom_sort_key "N/A") with "zzz" in L.
  destruct (custom_sort_key (Out.name r')) as [|c rest]; [discriminate L|].
  exists c, rest. split; [reflexivity|].
  unfold Str.leb in L. cbn [Str.compare] in L.
  change (Char.code "z") with 122%N in L.
  destruct (N.compare_spec 122 (Char.code c)) as [Q | Q | Q]; [lia | lia |].
  discriminate L.
Qed.

Lemma rows_after_na_start_at_z_witness :
  exists c rest,
    custom_sort_key (Out.name (bare_row "{Tbd}")) = String c rest /\
    (122 <= Char.code c)%N.
Proof.
  apply (rows_after_na_start_at_z stable_kind
           [bare_row "{Tbd}"; bare_row "Ann"; bare_row "N/A"]
           [bare_row "Ann"] [bare_row "{Tbd}"] (bare_row "N/A") (bare_row "{Tbd}")).
  - vm_compute. reflexivity.
  - reflexivity.
  - apply list_elem_of_here.
Defined.

(** X20: under the policy [city] every row that comes after a row whose city
    is missing has its city missing too: the rows without a city are at the
    end. *)
Theorem rows_without_city_come_last
    (kind : SortKind) (df l1 l2 : list Out.row) (r r' : Out.row) :
  sort_dataframe df "city" = (l1 ++ r :: l2)%list ->
  Out.city r = NaN ->
  r' ∈ l2 ->
  Out.city r' = NaN.
Proof.
  intros E Hn Hr'.
  pose proof (sorted_after _ _ l1 l2 r r' (sort_by_city_sorted df) E Hr') as L.
  unfold city_state_leb, pair_leb in L. cbn [fst snd] in L. rewrite Hn in L.
  destruct (Out.city r'); [reflexivity | discriminate L].
Qed.

Lemma rows_without_city_come_last_witness :
  let nowhere := bare_row "Ann" in
  let norfolk := sample_row "Bob" "VA" "Norfolk" 1 in
  @sort_dataframe stable_kind [nowhere; norfolk; nowhere] "city"
    = [norfolk; nowhere; nowhere] /\
  Out.city nowhere = NaN.
Proof.
  intros nowhere norfolk. split; [vm_compute; reflexivity|].
  apply (rows_without_city_come_last stable_kind [nowhere; norfolk; nowhere]
           [norfolk] [nowhere] nowhere nowhere).
  - vm_compute. reflexivity.
  - reflexivity.
  - apply list_elem_of_here.
Defined.

(** ** The normal form of a cleaned name *)






Lemma drop_while_idem p s : Str.drop_while p (Str.drop_while p s) = Str.drop_while p s.
Proof.
  induction s as [|c s IH]; [reflexivity|]. cbn [Str.drop_while].
  destruct (p c) eqn:E; [exact IH|]. cbn [Str.drop_while]. rewrite E. reflexivity.
Qed.

















(** No quote character comes back after the first substitution. *)












(** ** Single calls of [add_to_dict] *)

Lemma dict_set_absent k v d :
  dict_get k d = None -> dict_set k v d = (d ++ [(k, v)])%list.
Proof.
  induction d as [|[k0 v0] d IH]; cbn [dict_get dict_set]; [reflexivity|].
  destruct (String.eqb k k0); [discriminate|]. intros H. rewrite (IH H). reflexivity.
Qed.

(** X22: two names that differ only in the case of their letters are filed
    under the same key, or are both skipped. *)
Theorem names_equal_up_to_case_share_a_key (a b : string) :
  Str.lower a = Str.lower b -> key_of (Str a) = key_of (Str b).
Proof.
  intros E. pose proof (title_from_lower false a) as Ta.
  pose proof (title_from_lower false b) as Tb. rewrite E in Ta.
  destruct a as [|x a], b as [|y b]; try discriminate E; [reflexivity|].
  cbn [key_of String.eqb]. f_equal. unfold Str.title. congruence.
Qed.

Lemma names_equal_up_to_case_share_a_key_witness :
  Str.lower "o'NEIL, jane" = Str.lower "O'neil, JANE" /\
  key_of (Str "o'NEIL, jane") = key_of (Str "O'neil, JANE").
Proof.
  split; [reflexivity|].
  apply (names_equal_up_to_case_share_a_key "o'NEIL, jane" "O'neil, JANE").
  reflexivity.
Defined.

(** X23: the first call for a key appends one record at the end of the
    dictionary, with the contact details of the call, the count 1 and the
    two singleton sets, and leaves every record that was there as it was. *)
Theorem first_sighting_appends_record
    (d : dict) (name : cell) (info : contact_info) (opp : cell * cell) (k : string) :
  key_of name = Some k ->
  dict_get k d = None ->
  add_to_dict d name info opp
  = (d ++ [(k, {| email := info_email info;
                  phone := info_phone info;
                  state := info_state info;
                  city := info_city info;
                  agency := info_agency info;
                  opportunity_count := 1;
                  departments := {[ opp.1 ]};
                  contract_types := {[ opp.2 ]} |})])%list.
Proof.
  intros K G. rewrite (add_to_dict_filed d name info opp k K), G.
  apply dict_set_absent, G.
Qed.

Lemma first_sighting_appends_record_witness :
  let d := add_to_dict [] (Str "jane smith") first_info
             (Str "Logistics", Str "Widget Supply") in
  (d.*1 = ["Jane Smith"]) /\
  (add_to_dict d (Str "bob JONES") later_info (Str "Supply", Str "Gadget Supply")).*1
  = ["Jane Smith"; "Bob Jones"].
Proof.
  intros d. split; [reflexivity|].
  rewrite (first_sighting_appends_record d (Str "bob JONES") later_info
             (Str "Supply", Str "Gadget Supply") "Bob Jones" eq_refl eq_refl).
  reflexivity.
Defined.
